(** * moiR: the single-chain state and update kernel of src/src/chain.cpp

    Doubles are modelled by real numbers ([R]) except where a claim is about
    IEEE behaviour: the empirical initialisation of [p] (NaN on 0/0) uses
    Rocq's primitive 64-bit floats, and the final reduction of the
    importance-sampling kernel has a second model that keeps the underflow of
    [exp] to zero and [log 0 = -inf].

    C++ [int] values are [Z]; [std::vector] is [list]; indexed writes use
    [set_nth], which leaves the list unchanged out of range (the C++ code is
    undefined there and never writes out of range on the paths modelled).
    Loops [for (i = 0; i < n; i++)] are [fold_left] over [seq 0 n]. *)

From Stdlib Require Import ZArith Lia List Reals Lra Psatz.
From Stdlib Require PrimFloat Uint63.
Import ListNotations.

Open Scope R_scope.

(** ** Vectors *)

Fixpoint set_nth {A : Type} (n : nat) (x : A) (l : list A) : list A :=
  match l, n with
  | [], _ => []
  | _ :: t, O => x :: t
  | h :: t, S n' => h :: set_nth n' x t
  end.

Definition sumR (l : list R) : R := fold_right Rplus 0 l.

(** ** Constants of the code *)

(** [#define UNDERFLO 1e-100] in mcmc_utils.h *)
Definition UNDERFLO : R := / 10 ^ 100.

Definition one_em6 : R := / 10 ^ 6.
Definition one_em12 : R := / 10 ^ 12.

(** ** Immutable members of [Chain] *)

Record Lookup := mkLookup {
  lookup_lgamma : Z -> R;
  lookup_sampling_depth : Z -> Z -> Z
}.

Record Parameters := mkParameters {
  importance_sampling_depth : Z;
  max_coi : Z;
  max_eps_pos : R;
  max_eps_neg : R;
  eps_pos_0 : R;
  eps_neg_0 : R
}.

Record GenotypingData := mkGenotypingData {
  num_loci : nat;
  num_samples : nat;
  num_alleles : list nat;
  observed_alleles : list (list (list Z));   (* [j][i][a] *)
  observed_coi : list Z
}.

(** ** The sampler (sampler.h), an RNG facade with explicit state [Smp] *)

Class Sampler (Smp : Type) := {
  sample_coi_delta : Smp -> R -> Z * Smp;
  sample_allele_frequencies : Smp -> list R -> R -> list R * Smp;
  sample_epsilon_pos : Smp -> R -> R -> R * Smp;
  sample_epsilon_neg : Smp -> R -> R -> R * Smp;
  sample_genotype : Smp -> Z -> list R -> Z -> list (list Z) * Smp;
  sample_log_mh_acceptance : Smp -> R * Smp
}.

(** ** Likelihood kernel (chain.cpp, lines 200-290) *)

Section Kernel.

Variable lookup : Lookup.
Variable params : Parameters.

Definition reweight_allele_frequencies (allele_frequencies : list R)
    (observed_genotype : list Z) (epsilon_neg epsilon_pos : R) : list R :=
  let n := length allele_frequencies in
  let '(res, res_sum) :=
    fold_left (fun '(res, res_sum) i =>
        let o := IZR (nth i observed_genotype 0%Z) in
        let v := nth i allele_frequencies 0 * ((o * (1 - epsilon_neg)) + ((1 - o) * epsilon_neg))
                 + epsilon_pos + one_em6 in
        (set_nth i v res, res_sum + v))
      (seq 0 n) (repeat 0 n, 0) in
  let res_sum_inv := 1 / res_sum in
  fold_left (fun res i => set_nth i (nth i res 0 * res_sum_inv) res)
    (seq 0 (length res)) res.

Definition calc_genotype_log_pmf (genotypes : list (list Z)) (coi : Z)
    (allele_frequencies : list R) (num_genotypes : Z) : list R :=
  let n := Z.to_nat num_genotypes in
  fold_left (fun res i =>
      let log_prob := ln (nth i allele_frequencies 0 + one_em12) in
      fold_left (fun res j =>
          let g := nth i (nth j genotypes []) 0%Z in
          if (0 <? g)%Z
          then set_nth j (nth j res 0 + (IZR g * log_prob - lookup_lgamma lookup (g + 1))) res
          else res)
        (seq 0 n) res)
    (seq 0 (length allele_frequencies))
    (repeat (lookup_lgamma lookup (coi + 1)) n).

Definition calc_obs_genotype_lliks (obs_genotype : list Z)
    (true_genotypes : list (list Z)) (epsilon_neg epsilon_pos : R)
    (num_genotypes : Z) : list R :=
  let tp := ln (1 - epsilon_neg) in
  let tn := ln (1 - epsilon_pos) in
  let fp := ln epsilon_pos in
  let fn := ln epsilon_neg in
  fold_left (fun lliks i =>
      let g := nth i true_genotypes [] in
      fold_left (fun lliks j =>
          let t := nth j g 0%Z in
          let v := if (nth j obs_genotype 0 =? 0)%Z
                   then (if (t =? 0)%Z then tn else IZR t * fn)
                   else (if (t =? 0)%Z then fp else IZR t * tp) in
          set_nth i (nth i lliks 0 + v) lliks)
        (seq 0 (length g)) lliks)
    (seq 0 (Z.to_nat num_genotypes))
    (repeat 0 (length true_genotypes)).

(** Lines 279-289: [res += exp(w_i)], [res /= D], [log res]. *)
Definition marginal_reduce (log_weights : list R) (depth : Z) : R :=
  let res := fold_left (fun res w => res + exp w) log_weights 0 in
  let res := res / IZR depth in
  ln res.

Context {Smp : Type} `{Sampler Smp}.

Definition sampling_depth_for (coi : Z) (allele_frequencies : list R) : Z :=
  Z.min (importance_sampling_depth params)
        (lookup_sampling_depth lookup coi (Z.of_nat (length allele_frequencies))).

Definition calc_genotype_marginal_llik (s : Smp) (obs_genotype : list Z) (coi : Z)
    (allele_frequencies : list R) (epsilon_neg epsilon_pos : R) : R * Smp :=
  let depth := sampling_depth_for coi allele_frequencies in
  let q := reweight_allele_frequencies allele_frequencies obs_genotype epsilon_neg epsilon_pos in
  let '(sample_true_genotypes, s) := sample_genotype s coi q depth in
  let importance_probabilities := calc_genotype_log_pmf sample_true_genotypes coi q depth in
  let g_star_probabilities := calc_genotype_log_pmf sample_true_genotypes coi allele_frequencies depth in
  let g_given_g_star_probabilities :=
    calc_obs_genotype_lliks obs_genotype sample_true_genotypes epsilon_neg epsilon_pos depth in
  let log_weights := map (fun i => nth i g_given_g_star_probabilities 0
                                   + nth i g_star_probabilities 0
                                   - nth i importance_probabilities 0)
                         (seq 0 (Z.to_nat depth)) in
  (marginal_reduce log_weights depth, s).

End Kernel.

(** ** Chain state (the mutable members of [Chain]) *)

Record Chain (Smp : Type) := mkChain {
  m : list Z;
  m_prop_mean : list R;
  m_accept : list Z;
  p : list (list R);
  prop_p : list R;
  p_prop_var : list R;
  p_accept : list Z;
  eps_pos : R;
  eps_pos_var : R;
  eps_pos_accept : Z;
  eps_neg : R;
  eps_neg_var : R;
  eps_neg_accept : Z;
  llik_old : list (list R);
  llik_new : list (list R);
  llik : R;
  sampler : Smp
}.

Arguments mkChain {Smp}.
Arguments m {Smp}.
Arguments m_prop_mean {Smp}.
Arguments m_accept {Smp}.
Arguments p {Smp}.
Arguments prop_p {Smp}.
Arguments p_prop_var {Smp}.
Arguments p_accept {Smp}.
Arguments eps_pos {Smp}.
Arguments eps_pos_var {Smp}.
Arguments eps_pos_accept {Smp}.
Arguments eps_neg {Smp}.
Arguments eps_neg_var {Smp}.
Arguments eps_neg_accept {Smp}.
Arguments llik_old {Smp}.
Arguments llik_new {Smp}.
Arguments llik {Smp}.
Arguments sampler {Smp}.

Definition set_m {Smp : Type} (c : Chain Smp) v : Chain Smp :=
  mkChain v (m_prop_mean c) (m_accept c) (p c) (prop_p c) (p_prop_var c) (p_accept c) (eps_pos c) (eps_pos_var c) (eps_pos_accept c) (eps_neg c) (eps_neg_var c) (eps_neg_accept c) (llik_old c) (llik_new c) (llik c) (sampler c).
Definition set_m_prop_mean {Smp : Type} (c : Chain Smp) v : Chain Smp :=
  mkChain (m c) v (m_accept c) (p c) (prop_p c) (p_prop_var c) (p_accept c) (eps_pos c) (eps_pos_var c) (eps_pos_accept c) (eps_neg c) (eps_neg_var c) (eps_neg_accept c) (llik_old c) (llik_new c) (llik c) (sampler c).
Definition set_m_accept {Smp : Type} (c : Chain Smp) v : Chain Smp :=
  mkChain (m c) (m_prop_mean c) v (p c) (prop_p c) (p_prop_var c) (p_accept c) (eps_pos c) (eps_pos_var c) (eps_pos_accept c) (eps_neg c) (eps_neg_var c) (eps_neg_accept c) (llik_old c) (llik_new c) (llik c) (sampler c).
Definition set_p {Smp : Type} (c : Chain Smp) v : Chain Smp :=
  mkChain (m c) (m_prop_mean c) (m_accept c) v (prop_p c) (p_prop_var c) (p_accept c) (eps_pos c) (eps_pos_var c) (eps_pos_accept c) (eps_neg c) (eps_neg_var c) (eps_neg_accept c) (llik_old c) (llik_new c) (llik c) (sampler c).
Definition set_prop_p {Smp : Type} (c : Chain Smp) v : Chain Smp :=
  mkChain (m c) (m_prop_mean c) (m_accept c) (p c) v (p_prop_var c) (p_accept c) (eps_pos c) (eps_pos_var c) (eps_pos_accept c) (eps_neg c) (eps_neg_var c) (eps_neg_accept c) (llik_old c) (llik_new c) (llik c) (sampler c).
Definition set_p_prop_var {Smp : Type} (c : Chain Smp) v : Chain Smp :=
  mkChain (m c) (m_prop_mean c) (m_accept c) (p c) (prop_p c) v (p_accept c) (eps_pos c) (eps_pos_var c) (eps_pos_accept c) (eps_neg c) (eps_neg_var c) (eps_neg_accept c) (llik_old c) (llik_new c) (llik c) (sampler c).
Definition set_p_accept {Smp : Type} (c : Chain Smp) v : Chain Smp :=
  mkChain (m c) (m_prop_mean c) (m_accept c) (p c) (prop_p c) (p_prop_var c) v (eps_pos c) (eps_pos_var c) (eps_pos_accept c) (eps_neg c) (eps_neg_var c) (eps_neg_accept c) (llik_old c) (llik_new c) (llik c) (sampler c).
Definition set_eps_pos {Smp : Type} (c : Chain Smp) v : Chain Smp :=
  mkChain (m c) (m_prop_mean c) (m_accept c) (p c) (prop_p c) (p_prop_var c) (p_accept c) v (eps_pos_var c) (eps_pos_accept c) (eps_neg c) (eps_neg_var c) (eps_neg_accept c) (llik_old c) (llik_new c) (llik c) (sampler c).
Definition set_eps_pos_var {Smp : Type} (c : Chain Smp) v : Chain Smp :=
  mkChain (m c) (m_prop_mean c) (m_accept c) (p c) (prop_p c) (p_prop_var c) (p_accept c) (eps_pos c) v (eps_pos_accept c) (eps_neg c) (eps_neg_var c) (eps_neg_accept c) (llik_old c) (llik_new c) (llik c) (sampler c).
Definition set_eps_pos_accept {Smp : Type} (c : Chain Smp) v : Chain Smp :=
  mkChain (m c) (m_prop_mean c) (m_accept c) (p c) (prop_p c) (p_prop_var c) (p_accept c) (eps_pos c) (eps_pos_var c) v (eps_neg c) (eps_neg_var c) (eps_neg_accept c) (llik_old c) (llik_new c) (llik c) (sampler c).
Definition set_eps_neg {Smp : Type} (c : Chain Smp) v : Chain Smp :=
  mkChain (m c) (m_prop_mean c) (m_accept c) (p c) (prop_p c) (p_prop_var c) (p_accept c) (eps_pos c) (eps_pos_var c) (eps_pos_accept c) v (eps_neg_var c) (eps_neg_accept c) (llik_old c) (llik_new c) (llik c) (sampler c).
Definition set_eps_neg_var {Smp : Type} (c : Chain Smp) v : Chain Smp :=
  mkChain (m c) (m_prop_mean c) (m_accept c) (p c) (prop_p c) (p_prop_var c) (p_accept c) (eps_pos c) (eps_pos_var c) (eps_pos_accept c) (eps_neg c) v (eps_neg_accept c) (llik_old c) (llik_new c) (llik c) (sampler c).
Definition set_eps_neg_accept {Smp : Type} (c : Chain Smp) v : Chain Smp :=
  mkChain (m c) (m_prop_mean c) (m_accept c) (p c) (prop_p c) (p_prop_var c) (p_accept c) (eps_pos c) (eps_pos_var c) (eps_pos_accept c) (eps_neg c) (eps_neg_var c) v (llik_old c) (llik_new c) (llik c) (sampler c).
Definition set_llik_old {Smp : Type} (c : Chain Smp) v : Chain Smp :=
  mkChain (m c) (m_prop_mean c) (m_accept c) (p c) (prop_p c) (p_prop_var c) (p_accept c) (eps_pos c) (eps_pos_var c) (eps_pos_accept c) (eps_neg c) (eps_neg_var c) (eps_neg_accept c) v (llik_new c) (llik c) (sampler c).
Definition set_llik_new {Smp : Type} (c : Chain Smp) v : Chain Smp :=
  mkChain (m c) (m_prop_mean c) (m_accept c) (p c) (prop_p c) (p_prop_var c) (p_accept c) (eps_pos c) (eps_pos_var c) (eps_pos_accept c) (eps_neg c) (eps_neg_var c) (eps_neg_accept c) (llik_old c) v (llik c) (sampler c).
Definition set_llik {Smp : Type} (c : Chain Smp) v : Chain Smp :=
  mkChain (m c) (m_prop_mean c) (m_accept c) (p c) (prop_p c) (p_prop_var c) (p_accept c) (eps_pos c) (eps_pos_var c) (eps_pos_accept c) (eps_neg c) (eps_neg_var c) (eps_neg_accept c) (llik_old c) (llik_new c) v (sampler c).
Definition set_sampler {Smp : Type} (c : Chain Smp) v : Chain Smp :=
  mkChain (m c) (m_prop_mean c) (m_accept c) (p c) (prop_p c) (p_prop_var c) (p_accept c) (eps_pos c) (eps_pos_var c) (eps_pos_accept c) (eps_neg c) (eps_neg_var c) (eps_neg_accept c) (llik_old c) (llik_new c) (llik c) v.

Definition get2 (ll : list (list R)) (j i : nat) : R := nth i (nth j ll []) 0.

Definition upd2 (ll : list (list R)) (j i : nat) (v : R) : list (list R) :=
  set_nth j (set_nth i v (nth j ll [])) ll.

Definition Rltb (x y : R) : bool := if Rlt_dec x y then true else false.
Definition Rleb (x y : R) : bool := if Rle_dec x y then true else false.

(** ** Update blocks (chain.cpp, lines 60-198) and the log-likelihood accessor *)

Section ChainBlocks.

Variable genotyping_data : GenotypingData.
Variable lookup : Lookup.
Variable params : Parameters.
Context {Smp : Type} `{Sampler Smp}.

Definition obs (j i : nat) : list Z :=
  nth i (nth j (observed_alleles genotyping_data) []) [].

(** [calc_genotype_marginal_llik] as a member: it advances [this->sampler]. *)
Definition marg (c : Chain Smp) (og : list Z) (coi : Z) (af : list R) (en ep : R)
    : R * Chain Smp :=
  let '(v, s) := calc_genotype_marginal_llik lookup params (sampler c) og coi af en ep in
  (v, set_sampler c s).

Definition update_m_sample (iteration : Z) (c : Chain Smp) (i : nat) : Chain Smp :=
  let '(delta, s) := sample_coi_delta (sampler c) (nth i (m_prop_mean c) 0) in
  let c := set_sampler c s in
  let prop_m := (delta + nth i (m c) 0)%Z in
  if (prop_m =? nth i (m c) 0)%Z then
    let c := set_m_prop_mean c (set_nth i (nth i (m_prop_mean c) 0
                                           + (1 - 23/100) / sqrt (IZR iteration)) (m_prop_mean c)) in
    set_m_accept c (set_nth i (nth i (m_accept c) 0%Z + 1)%Z (m_accept c))
  else if ((prop_m <=? max_coi params)%Z && (0 <? prop_m)%Z)%bool then
    let '(c, sum_can, sum_orig) :=
      fold_left (fun '(c, sum_can, sum_orig) j =>
          let '(v, c) := marg c (obs j i) prop_m (nth j (p c) []) (eps_neg c) (eps_pos c) in
          let c := set_llik_new c (upd2 (llik_new c) j i v) in
          (c, sum_can + get2 (llik_new c) j i, sum_orig + get2 (llik_old c) j i))
        (seq 0 (num_loci genotyping_data)) (c, 0, 0) in
    let '(u, s) := sample_log_mh_acceptance (sampler c) in
    let c := set_sampler c s in
    if Rleb u (sum_can - sum_orig) then
      let c := set_m c (set_nth i prop_m (m c)) in
      let c := set_m_prop_mean c (set_nth i (nth i (m_prop_mean c) 0
                                             + (1 - 23/100) / sqrt (IZR iteration)) (m_prop_mean c)) in
      let c := set_m_accept c (set_nth i (nth i (m_accept c) 0%Z + 1)%Z (m_accept c)) in
      fold_left (fun c j => set_llik_old c (upd2 (llik_old c) j i (get2 (llik_new c) j i)))
        (seq 0 (num_loci genotyping_data)) c
    else
      let c := set_m_prop_mean c (set_nth i (nth i (m_prop_mean c) 0
                                             - 23/100 / sqrt (IZR iteration)) (m_prop_mean c)) in
      let mp := nth i (m_prop_mean c) 0 in
      set_m_prop_mean c (set_nth i (if Rltb mp 0 then 0 else mp) (m_prop_mean c))
  else c.

Definition update_m (iteration : Z) (c : Chain Smp) : Chain Smp :=
  fold_left (update_m_sample iteration) (seq 0 (num_samples genotyping_data)) c.

Definition update_p_locus (iteration : Z) (c : Chain Smp) (j : nat) : Chain Smp :=
  let '(pp, s) := sample_allele_frequencies (sampler c) (nth j (p c) []) (nth j (p_prop_var c) 0) in
  let c := set_prop_p (set_sampler c s) pp in
  let '(c, sum_can, sum_orig) :=
    fold_left (fun '(c, sum_can, sum_orig) i =>
        let '(v, c) := marg c (obs j i) (nth i (m c) 0%Z) (prop_p c) (eps_neg c) (eps_pos c) in
        let c := set_llik_new c (upd2 (llik_new c) j i v) in
        (c, sum_can + get2 (llik_new c) j i, sum_orig + get2 (llik_old c) j i))
      (seq 0 (num_samples genotyping_data)) (c, 0, 0) in
  let '(u, s) := sample_log_mh_acceptance (sampler c) in
  let c := set_sampler c s in
  if Rleb u (sum_can - sum_orig) then
    let c := set_p c (set_nth j (prop_p c) (p c)) in
    let c := set_p_accept c (set_nth j (nth j (p_accept c) 0%Z + 1)%Z (p_accept c)) in
    let c := set_p_prop_var c (set_nth j (exp (ln (nth j (p_prop_var c) 0)
                                               + (1 - 23/100) / sqrt (IZR iteration))) (p_prop_var c)) in
    fold_left (fun c i => set_llik_old c (upd2 (llik_old c) j i (get2 (llik_new c) j i)))
      (seq 0 (num_samples genotyping_data)) c
  else
    set_p_prop_var c (set_nth j (exp (ln (nth j (p_prop_var c) 0)
                                      - 23/100 / sqrt (IZR iteration))) (p_prop_var c)).

Definition update_p (iteration : Z) (c : Chain Smp) : Chain Smp :=
  fold_left (update_p_locus iteration) (seq 0 (num_loci genotyping_data)) c.

(** The double loop over all cells shared by the two epsilon blocks:
    [llik_new[j][i] = calc_genotype_marginal_llik(...)] and the two sums. *)
Definition recompute_all (c : Chain Smp) (en ep : R) : Chain Smp * R * R :=
  fold_left (fun '(c, sum_can, sum_orig) j =>
      fold_left (fun '(c, sum_can, sum_orig) i =>
          let '(v, c) := marg c (obs j i) (nth i (m c) 0%Z) (nth j (p c) []) en ep in
          let c := set_llik_new c (upd2 (llik_new c) j i v) in
          (c, sum_can + get2 (llik_new c) j i, sum_orig + get2 (llik_old c) j i))
        (seq 0 (num_samples genotyping_data)) (c, sum_can, sum_orig))
    (seq 0 (num_loci genotyping_data)) (c, 0, 0).

Definition copy_all (c : Chain Smp) : Chain Smp :=
  fold_left (fun c j =>
      fold_left (fun c i => set_llik_old c (upd2 (llik_old c) j i (get2 (llik_new c) j i)))
        (seq 0 (num_samples genotyping_data)) c)
    (seq 0 (num_loci genotyping_data)) c.

Definition update_eps_pos (iteration : Z) (c : Chain Smp) : Chain Smp :=
  let '(prop_eps_pos, s) := sample_epsilon_pos (sampler c) (eps_pos c) (eps_pos_var c) in
  let c := set_sampler c s in
  if (Rltb prop_eps_pos (max_eps_pos params) && Rltb 0 prop_eps_pos)%bool then
    let '(c, sum_can, sum_orig) := recompute_all c (eps_neg c) prop_eps_pos in
    let '(u, s) := sample_log_mh_acceptance (sampler c) in
    let c := set_sampler c s in
    if Rleb u (sum_can - sum_orig) then
      let c := set_eps_pos c prop_eps_pos in
      let c := set_eps_pos_var c (eps_pos_var c + (1 - 23/100) / sqrt (IZR iteration)) in
      let c := set_eps_pos_accept c (eps_pos_accept c + 1)%Z in
      copy_all c
    else
      let c := set_eps_pos_var c (eps_pos_var c - 23/100 / sqrt (IZR iteration)) in
      if Rltb (eps_pos_var c) UNDERFLO then set_eps_pos_var c UNDERFLO else c
  else c.

Definition update_eps_neg (iteration : Z) (c : Chain Smp) : Chain Smp :=
  let '(prop_eps_neg, s) := sample_epsilon_neg (sampler c) (eps_neg c) (eps_neg_var c) in
  let c := set_sampler c s in
  if (Rltb prop_eps_neg (max_eps_neg params) && Rltb 0 prop_eps_neg)%bool then
    let '(c, sum_can, sum_orig) := recompute_all c prop_eps_neg (eps_pos c) in
    let '(u, s) := sample_log_mh_acceptance (sampler c) in
    let c := set_sampler c s in
    if Rleb u (sum_can - sum_orig) then
      let c := set_eps_neg c prop_eps_neg in
      let c := set_eps_neg_var c (eps_neg_var c + (1 - 23/100) / sqrt (IZR iteration)) in
      let c := set_eps_neg_accept c (eps_neg_accept c + 1)%Z in
      copy_all c
    else
      let c := set_eps_neg_var c (eps_neg_var c - 23/100 / sqrt (IZR iteration)) in
      if Rltb (eps_neg_var c) UNDERFLO then set_eps_neg_var c UNDERFLO else c
  else c.

Definition calculate_llik (c : Chain Smp) : Chain Smp :=
  let c := set_llik c 0 in
  fold_left (fun c j =>
      fold_left (fun c i => set_llik c (llik c + get2 (llik_old c) j i))
        (seq 0 (num_samples genotyping_data)) c)
    (seq 0 (num_loci genotyping_data)) c.

Definition get_llik (c : Chain Smp) : R * Chain Smp :=
  let c := calculate_llik c in
  (llik c, c).

End ChainBlocks.

(** ** [initialize_p] (chain.cpp, lines 10-39) on IEEE doubles

    [p[i][j] = total_locus_alleles[i][j] / (double) total_alleles[i]]; the
    [int] operands are converted to [double] before the division. The
    [push_back] calls append after the [num_loci] entries created by the
    vector constructors, so the loop indices [i] always address the
    constructor's entries. [p] starts empty and gets one vector per locus. *)

Definition Z_to_double (z : Z) : PrimFloat.float :=
  if (z <? 0)%Z
  then PrimFloat.opp (PrimFloat.of_uint63 (Uint63.of_Z (- z)))
  else PrimFloat.of_uint63 (Uint63.of_Z z).

(** The sample loop and the allele loop of locus [i] (lines 23-34). *)
Definition count_locus_alleles (i : nat) (obs_locus_genotypes : list (list Z))
    (st : list (list Z) * list Z) : list (list Z) * list Z :=
  fold_left (fun st j =>
      let sample_genotype := nth j obs_locus_genotypes [] in
      fold_left (fun '(tla, ta) k =>
          let tla := if Nat.eqb j 0 then set_nth i (nth i tla [] ++ [0%Z]) tla else tla in
          let tla := set_nth i (set_nth k (nth k (nth i tla []) 0 + nth k sample_genotype 0)%Z
                                        (nth i tla [])) tla in
          let ta := set_nth i (nth i ta 0 + nth k sample_genotype 0)%Z ta in
          (tla, ta))
        (seq 0 (length sample_genotype)) st)
    (seq 0 (length obs_locus_genotypes)) st.

(** The division loop of locus [i] (lines 35-37). *)
Definition fill_p (i A : nat) (total_locus_alleles : list (list Z)) (total_alleles : list Z)
    (p : list (list PrimFloat.float)) : list (list PrimFloat.float) :=
  fold_left (fun p j =>
      set_nth i (set_nth j (PrimFloat.div (Z_to_double (nth j (nth i total_locus_alleles []) 0%Z))
                                          (Z_to_double (nth i total_alleles 0%Z)))
                         (nth i p [])) p)
    (seq 0 A) p.

(** One iteration of the locus loop (lines 16-38). *)
Definition initialize_p_locus (gd : GenotypingData)
    (st : list (list Z) * list Z * list (list PrimFloat.float)) (i : nat)
    : list (list Z) * list Z * list (list PrimFloat.float) :=
  let '(total_locus_alleles, total_alleles, p) := st in
  let A := nth i (num_alleles gd) 0%nat in
  let total_locus_alleles := total_locus_alleles ++ [repeat 0%Z A] in
  let total_alleles := total_alleles ++ [0%Z] in
  let p := p ++ [repeat PrimFloat.zero A] in
  let '(total_locus_alleles, total_alleles) :=
    count_locus_alleles i (nth i (observed_alleles gd) []) (total_locus_alleles, total_alleles) in
  (total_locus_alleles, total_alleles, fill_p i A total_locus_alleles total_alleles p).

Definition initialize_p_state (gd : GenotypingData)
    : list (list Z) * list Z * list (list PrimFloat.float) :=
  let L := num_loci gd in
  fold_left (initialize_p_locus gd) (seq 0 L) (repeat [] L, repeat 0%Z L, []).

Definition initialize_p (gd : GenotypingData) : list (list PrimFloat.float) :=
  let '(_, _, p) := initialize_p_state gd in p.

Definition total_alleles_of (gd : GenotypingData) : list Z :=
  let '(_, ta, _) := initialize_p_state gd in ta.

(** Sum of a frequency vector in double arithmetic, left to right. *)
Definition fsum (l : list PrimFloat.float) : PrimFloat.float :=
  fold_left PrimFloat.add l PrimFloat.zero.

(** ** Lines 279-289 on IEEE doubles, at the underflow end

    [exp] of a [double] argument returns a [double]: a result at or below
    2^-1075 (half the smallest subnormal) rounds to [+0.0]; above that
    the rounding error of [exp] is not modelled. [log] of [+0.0] is [-inf],
    of a negative number NaN. With [D = 0] the loop is empty and [0/0] is
    NaN. *)

Inductive ext := Fin (r : R) | NegInf | NaN.

Definition exp_f64 (w : R) : R := if Rleb (exp w) (/ 2 ^ 1075) then 0 else exp w.

Definition log_f64 (x : R) : ext :=
  if Rltb 0 x then Fin (ln x) else if Rltb x 0 then NaN else NegInf.

Definition marginal_reduce_f64 (log_weights : list R) (depth : Z) : ext :=
  let res := fold_left (fun res w => res + exp_f64 w) log_weights 0 in
  if (depth =? 0)%Z then NaN else log_f64 (res / IZR depth).

(** ** The kernel's formulas as §4.1 of the spec writes them *)

(** Emission, per allele: obs 1 / g>0: g log(1-e-); obs 1 / g=0: log e+;
    obs 0 / g>0: g log e-; obs 0 / g=0: log(1-e+). *)
Definition emission_spec (obs_a g : list Z) (en ep : R) : R :=
  sumR (map (fun a =>
      let o := nth a obs_a 0%Z in
      let t := nth a g 0%Z in
      if (o =? 1)%Z
      then (if (0 <? t)%Z then IZR t * ln (1 - en) else ln ep)
      else (if (0 <? t)%Z then IZR t * ln en else ln (1 - ep)))
    (seq 0 (length obs_a))).

(** lnG(coi+1) - sum_a lnG(g_a+1) + sum_a g_a log(pi_a + 1e-12). *)
Definition log_pmf_spec (lookup : Lookup) (coi : Z) (pi : list R) (g : list Z) : R :=
  lookup_lgamma lookup (coi + 1)
  - sumR (map (fun a => lookup_lgamma lookup (nth a g 0%Z + 1)) (seq 0 (length pi)))
  + sumR (map (fun a => IZR (nth a g 0%Z) * ln (nth a pi 0 + one_em12)) (seq 0 (length pi))).

(** log((1/D) sum_d exp(log P(obs|g_d) + log p*(g_d) - log q(g_d))). *)
Definition marginal_spec (lookup : Lookup) (obs_a : list Z) (coi : Z) (pi q : list R)
    (en ep : R) (gs : list (list Z)) (depth : Z) : R :=
  ln (1 / IZR depth
      * sumR (map (fun d =>
                     let g := nth d gs [] in
                     exp (emission_spec obs_a g en ep + log_pmf_spec lookup coi pi g
                          - log_pmf_spec lookup coi q g))
                  (seq 0 (Z.to_nat depth)))).

(** The per-cell log-likelihood total, as a double sum over loci and samples. *)
Definition llik_total (gd : GenotypingData) (ll : list (list R)) : R :=
  sumR (map (fun j => sumR (map (fun i => get2 ll j i) (seq 0 (num_samples gd))))
            (seq 0 (num_loci gd))).

(** [c'] differs from [c] at most in the two log-likelihood caches and the
    sampler state. *)
Definition lliks_only {Smp : Type} (c c' : Chain Smp) : Prop :=
  exists lo ln s, c' = set_sampler (set_llik_new (set_llik_old c lo) ln) s.

(** The unnormalised proposal weight of allele [i] (line 204). *)
Definition reweight_term (allele_frequencies : list R) (observed_genotype : list Z)
    (epsilon_neg epsilon_pos : R) (i : nat) : R :=
  let o := IZR (nth i observed_genotype 0%Z) in
  nth i allele_frequencies 0 * ((o * (1 - epsilon_neg)) + ((1 - o) * epsilon_neg))
  + epsilon_pos + one_em6.

(** Invariant 2 of the spec for one sample. *)
Definition coi_ok (params : Parameters) (x : Z) : Prop := (1 <= x <= max_coi params)%Z.

(** The scales of the three adaptive continuous blocks: epsilon variances at
    or above [UNDERFLO], every [p_prop_var[j]] strictly positive. *)
Definition scales_ok {Smp : Type} (c : Chain Smp) : Prop :=
  UNDERFLO <= eps_pos_var c /\ UNDERFLO <= eps_neg_var c /\ Forall (fun v => 0 < v) (p_prop_var c).

(** ** Chain construction (chain.cpp, lines 10-57 and 307-348) *)

(** [v.resize(n, x)]: truncate to [n], or pad with [x] up to [n]. *)
Definition resize {A : Type} (n : nat) (x : A) (l : list A) : list A :=
  firstn n l ++ repeat x (n - length l).

(** [initialize_p] in the real-number model of the chain: the same counting
    loops as above, then [p[i][j] = total_locus_alleles[i][j] / total_alleles[i]].
    ([x / 0] is [0] in [R], NaN in double: properties of [p] below assume a
    non-zero total.) [p] is pushed onto the member's current value [p0]. *)
Definition fill_p_R (i A : nat) (total_locus_alleles : list (list Z)) (total_alleles : list Z)
    (p : list (list R)) : list (list R) :=
  fold_left (fun p j =>
      set_nth i (set_nth j (IZR (nth j (nth i total_locus_alleles []) 0%Z)
                            / IZR (nth i total_alleles 0%Z))
                         (nth i p [])) p)
    (seq 0 A) p.

Definition initialize_p_locus_R (gd : GenotypingData)
    (st : list (list Z) * list Z * list (list R)) (i : nat)
    : list (list Z) * list Z * list (list R) :=
  let '(total_locus_alleles, total_alleles, p) := st in
  let A := nth i (num_alleles gd) 0%nat in
  let total_locus_alleles := total_locus_alleles ++ [repeat 0%Z A] in
  let total_alleles := total_alleles ++ [0%Z] in
  let p := p ++ [repeat 0 A] in
  let '(total_locus_alleles, total_alleles) :=
    count_locus_alleles i (nth i (observed_alleles gd) []) (total_locus_alleles, total_alleles) in
  (total_locus_alleles, total_alleles, fill_p_R i A total_locus_alleles total_alleles p).

Definition initialize_p_R (gd : GenotypingData) (p0 : list (list R)) : list (list R) :=
  let L := num_loci gd in
  let '(_, _, p) := fold_left (initialize_p_locus_R gd) (seq 0 L)
                      (repeat [] L, repeat 0%Z L, p0) in
  p.

Section ChainInit.

Variable genotyping_data : GenotypingData.
Variable lookup : Lookup.
Variable params : Parameters.
Context {Smp : Type} `{Sampler Smp}.

Definition initialize_p_chain (c : Chain Smp) : Chain Smp :=
  let c := set_p_accept c (resize (num_loci genotyping_data) 0%Z (p_accept c)) in
  set_p c (initialize_p_R genotyping_data (p c)).

Definition initialize_m (c : Chain Smp) : Chain Smp :=
  let c := set_m c (observed_coi genotyping_data) in
  set_m_accept c (resize (num_samples genotyping_data) 0%Z (m_accept c)).

Definition initialize_eps_neg (c : Chain Smp) : Chain Smp :=
  set_eps_neg_accept (set_eps_neg c (eps_neg_0 params)) 0%Z.

Definition initialize_eps_pos (c : Chain Smp) : Chain Smp :=
  set_eps_pos_accept (set_eps_pos c (eps_pos_0 params)) 0%Z.

(** Lines 307-322: one new row per locus in each cache, then every cell
    gets the marginal log-likelihood at the current state (the console
    output is left out). *)
Definition initialize_likelihood (c : Chain Smp) : Chain Smp :=
  fold_left (fun c j =>
      let c := set_llik_old c (llik_old c ++ [repeat 0 (num_samples genotyping_data)]) in
      let c := set_llik_new c (llik_new c ++ [repeat 0 (num_samples genotyping_data)]) in
      fold_left (fun c i =>
          let '(marginal_llik, c) :=
            marg lookup params c (obs genotyping_data j i) (nth i (m c) 0%Z) (nth j (p c) [])
                 (eps_neg c) (eps_pos c) in
          let c := set_llik_old c (upd2 (llik_old c) j i marginal_llik) in
          set_llik_new c (upd2 (llik_new c) j i marginal_llik))
        (seq 0 (num_samples genotyping_data)) c)
    (seq 0 (num_loci genotyping_data)) c.

(** The members before the constructor body runs: empty vectors; the
    scalars are assigned below before any read, [0] stands for them. The
    sampler is constructed from [importance_sampling_depth] and
    [num_alleles] by code outside these files: [s0] is its state. *)
Definition chain_members (s0 : Smp) : Chain Smp :=
  mkChain [] [] [] [] [] [] [] 0 0 0%Z 0 0 0%Z [] [] 0 s0.

(** The constructor body (lines 326-346). *)
Definition new_chain (s0 : Smp) : Chain Smp :=
  let c := chain_members s0 in
  let c := set_llik c 0 in
  let c := set_eps_pos_var c (5 / 100) in
  let c := set_eps_neg_var c (5 / 100) in
  let c := set_m_prop_mean c (repeat 1 (num_samples genotyping_data)) in
  let c := set_p_prop_var c (repeat 1 (num_loci genotyping_data)) in
  let c := initialize_p_chain c in
  let c := initialize_m c in
  let c := initialize_eps_neg c in
  let c := initialize_eps_pos c in
  initialize_likelihood c.

End ChainInit.

(** ** Views of the chain state, one per update block *)

Definition m_part {Smp : Type} (c : Chain Smp) : list Z * list R * list Z :=
  (m c, m_prop_mean c, m_accept c).

Definition p_part {Smp : Type} (c : Chain Smp) : list (list R) * list R * list R * list Z :=
  (p c, prop_p c, p_prop_var c, p_accept c).

Definition eps_pos_part {Smp : Type} (c : Chain Smp) : R * R * Z :=
  (eps_pos c, eps_pos_var c, eps_pos_accept c).

Definition eps_neg_part {Smp : Type} (c : Chain Smp) : R * R * Z :=
  (eps_neg c, eps_neg_var c, eps_neg_accept c).

(** The largest of a non-empty list of log weights [w :: ws]. *)
Definition max_weight (w : R) (ws : list R) : R := fold_right Rmax w ws.

(** The two caches hold [L] rows of [N] cells each. *)
Definition cache_dims {Smp : Type} (gd : GenotypingData) (c : Chain Smp) : Prop :=
  length (llik_old c) = num_loci gd /\ length (llik_new c) = num_loci gd /\
  Forall (fun row => length row = num_samples gd) (llik_old c) /\
  Forall (fun row => length row = num_samples gd) (llik_new c).

(** ** A concrete run: one locus with two alleles, one sample of COI 1
    that observed allele 0 only, and a sampler that always returns the same
    draws. [lgamma] is tabulated as [ln ((k-1)!)]. *)

Definition ex_lookup : Lookup :=
  mkLookup (fun k => ln (INR (fact (Z.to_nat k - 1)))) (fun _ _ => 1%Z).

Definition ex_params : Parameters := mkParameters 1 4 (1 / 5) (1 / 5) (1 / 10) (1 / 10).

Definition ex_data : GenotypingData := mkGenotypingData 1 1 [2%nat] [[[1; 0]%Z]] [1%Z].

(** The same shape, with a sample that observed no allele at the locus. *)
Definition ex_data_unobserved : GenotypingData :=
  mkGenotypingData 1 1 [2%nat] [[[0; 0]%Z]] [1%Z].

#[export] Instance ex_sampler : Sampler unit := {
  sample_coi_delta := fun s _ => (5%Z, s);
  sample_allele_frequencies := fun s _ _ => ([1 / 2; 1 / 2], s);
  sample_epsilon_pos := fun s _ _ => (1 / 2, s);
  sample_epsilon_neg := fun s _ _ => (1 / 2, s);
  sample_genotype := fun s _ _ _ => ([[1; 0]%Z], s);
  sample_log_mh_acceptance := fun s => (-1 / 1000, s)
}.

Definition ex_chain : Chain unit :=
  mkChain [1%Z] [1] [0%Z] [[1 / 2; 1 / 2]] [1 / 2; 1 / 2] [UNDERFLO] [0%Z]
          (1 / 10) UNDERFLO 0 (1 / 10) UNDERFLO 0 [[0]] [[0]] 0 tt.

(** The invariant of the two loops of [initialize_likelihood] relative to
    the chain [c0] it started from: only caches and sampler moved, the two
    caches are equal, with [n] rows of one entry per sample. *)
Definition init_lik_inv {Smp : Type} (gd : GenotypingData) (c0 c : Chain Smp) (n : nat) : Prop :=
  lliks_only c0 c /\ llik_old c = llik_new c /\ length (llik_old c) = n /\
  Forall (fun row => length row = num_samples gd) (llik_old c).

(** The body of the allele loop of [count_locus_alleles] (lines 26-32), for
    locus [i], sample [j] and its genotype [g]. *)
Definition count_allele_step (i j : nat) (g : list Z)
    : list (list Z) * list Z -> nat -> list (list Z) * list Z :=
  fun '(tla, ta) k =>
  let tla := if Nat.eqb j 0 then set_nth i (nth i tla [] ++ [0%Z]) tla else tla in
  let tla := set_nth i (set_nth k (nth k (nth i tla []) 0 + nth k g 0)%Z
                                (nth i tla [])) tla in
  let ta := set_nth i (nth i ta 0 + nth k g 0)%Z ta in
  (tla, ta).

Definition sumZ (l : list Z) : Z := fold_right Z.add 0%Z l.

(** * Proofs *)

(** ** Lists *)

Lemma length_set_nth {A : Type} (n : nat) (x : A) (l : list A) :
  length (set_nth n x l) = length l.
Proof.
  revert n; induction l as [|h t IH]; intros [|n]; simpl; auto.
Qed.

Lemma nth_set_nth_eq {A : Type} (n : nat) (x d : A) (l : list A) :
  (n < length l)%nat -> nth n (set_nth n x l) d = x.
Proof.
  revert n; induction l as [|h t IH]; intros [|n] Hn; simpl in *; try lia; auto.
  apply IH; lia.
Qed.

Lemma nth_set_nth_neq {A : Type} (n k : nat) (x d : A) (l : list A) :
  n <> k -> nth k (set_nth n x l) d = nth k l d.
Proof.
  revert n k; induction l as [|h t IH]; intros [|n] [|k] Hnk; simpl; auto; try lia.
Qed.

Lemma set_nth_app_length {A : Type} (l1 l2 : list A) (y x : A) :
  set_nth (length l1) x (l1 ++ y :: l2) = l1 ++ x :: l2.
Proof.
  induction l1 as [|h t IH]; simpl; congruence.
Qed.

Lemma set_nth_app_at {A : Type} (k : nat) (l1 l2 : list A) (y x : A) :
  length l1 = k -> set_nth k x (l1 ++ y :: l2) = l1 ++ x :: l2.
Proof. intros <-; apply set_nth_app_length. Qed.

Lemma set_nth_nth_same {A : Type} (n : nat) (d : A) (l : list A) :
  (n < length l)%nat -> set_nth n (nth n l d) l = l.
Proof.
  revert n; induction l as [|h t IH]; intros [|n] Hn; simpl in *; try lia; auto.
  rewrite IH; auto; lia.
Qed.

Lemma set_nth_set_nth_same {A : Type} (n : nat) (x y : A) (l : list A) :
  set_nth n x (set_nth n y l) = set_nth n x l.
Proof.
  revert n; induction l as [|h t IH]; intros [|n]; simpl; auto; congruence.
Qed.

Lemma Forall_set_nth {A : Type} (P : A -> Prop) (n : nat) (x : A) (l : list A) :
  Forall P l -> P x -> Forall P (set_nth n x l).
Proof.
  intros Hl Hx; revert n; induction Hl as [|h t Hh Ht IH]; intros [|n]; simpl;
    constructor; auto.
Qed.

Lemma fold_left_invariant {A B : Type} (P : A -> Prop) (f : A -> B -> A) :
  (forall a x, P a -> P (f a x)) -> forall l a, P a -> P (fold_left f l a).
Proof.
  intros Hf l; induction l as [|x l IH]; intros a Ha; simpl; auto.
Qed.

Lemma fold_left_ext_inv {A B : Type} (P : A -> Prop) (f g : A -> B -> A) (l : list B) :
  (forall a x, In x l -> P a -> f a x = g a x /\ P (f a x)) ->
  forall a, P a -> fold_left f l a = fold_left g l a.
Proof.
  induction l as [|x l IH]; intros Hfg a Ha; simpl; auto.
  destruct (Hfg a x (or_introl eq_refl) Ha) as [E HP].
  rewrite <- E. apply IH; auto.
  intros a' y Hy; apply Hfg; simpl; auto.
Qed.

(** A loop [for (i = 0; i < k; i++) v[i] = F(i, v[i]);] rewrites a prefix. *)
Lemma fold_set_map (F : nat -> R -> R) (l : list R) (k : nat) :
  (k <= length l)%nat ->
  fold_left (fun l i => set_nth i (F i (nth i l 0)) l) (seq 0 k) l
  = map (fun i => F i (nth i l 0)) (seq 0 k) ++ skipn k l.
Proof.
  induction k as [|k IH]; intros Hk; [simpl; auto|].
  rewrite seq_S, fold_left_app, IH by lia; simpl.
  assert (Hs : skipn k l = nth k l 0 :: skipn (S k) l).
  { clear IH. revert k Hk; induction l as [|h t IHl]; intros [|k] Hk; simpl in *; try lia; auto.
    apply IHl; lia. }
  rewrite Hs.
  assert (Hlen : length (map (fun i => F i (nth i l 0)) (seq 0 k)) = k)
    by (rewrite length_map, length_seq; auto).
  rewrite app_nth2 by lia. rewrite Hlen, Nat.sub_diag. simpl.
  rewrite <- Hlen at 1. rewrite set_nth_app_length.
  rewrite map_app, <- app_assoc; reflexivity.
Qed.

Lemma nth_map_seq {A : Type} (f : nat -> A) (n k : nat) (d : A) :
  (k < n)%nat -> nth k (map f (seq 0 n)) d = f k.
Proof.
  intros Hk. rewrite nth_indep with (d' := f 0%nat) by (rewrite length_map, length_seq; auto).
  rewrite map_nth, seq_nth by auto; reflexivity.
Qed.

(** ** Real sums *)

Lemma sumR_app (l1 l2 : list R) : sumR (l1 ++ l2) = sumR l1 + sumR l2.
Proof.
  unfold sumR; induction l1 as [|x l IH]; simpl; [lra|]; rewrite IH; lra.
Qed.

Lemma sumR_seq_S (f : nat -> R) (n : nat) :
  sumR (map f (seq 0 (S n))) = sumR (map f (seq 0 n)) + f n.
Proof.
  rewrite seq_S, map_app, sumR_app; unfold sumR; simpl; rewrite Rplus_0_r; reflexivity.
Qed.

Lemma fold_left_plus_sumR {A : Type} (f : A -> R) (l : list A) (x : R) :
  fold_left (fun acc a => acc + f a) l x = x + sumR (map f l).
Proof.
  revert x; induction l as [|a l IH]; intros x; simpl; unfold sumR; simpl; [lra|].
  rewrite IH; unfold sumR; lra.
Qed.

Lemma sumR_ext (f g : nat -> R) (l : list nat) :
  (forall a, In a l -> f a = g a) -> sumR (map f l) = sumR (map g l).
Proof.
  intros H; f_equal; apply map_ext_in; auto.
Qed.

Lemma sumR_minus (f g : nat -> R) (l : list nat) :
  sumR (map (fun a => f a - g a) l) = sumR (map f l) - sumR (map g l).
Proof.
  unfold sumR; induction l as [|a l IH]; simpl; [lra|]; rewrite IH; lra.
Qed.

Lemma sumR_plus (f g : nat -> R) (l : list nat) :
  sumR (map (fun a => f a + g a) l) = sumR (map f l) + sumR (map g l).
Proof.
  unfold sumR; induction l as [|a l IH]; simpl; [lra|]; rewrite IH; lra.
Qed.

(** ** Field access through the setters *)

Lemma set_llik_set_llik {Smp : Type} (c : Chain Smp) x y :
  set_llik (set_llik c x) y = set_llik c y.
Proof. destruct c; reflexivity. Qed.

(** ** C10: [get_llik] *)

Lemma calculate_llik_inner {Smp : Type} (j : nat) (l : list nat) :
  forall (c : Chain Smp) x,
  fold_left (fun c i => set_llik c (llik c + get2 (llik_old c) j i)) l (set_llik c x)
  = set_llik c (x + sumR (map (fun i => get2 (llik_old c) j i) l)).
Proof.
  induction l as [|i l IH]; intros c x; simpl.
  - unfold sumR; simpl; rewrite Rplus_0_r; reflexivity.
  - rewrite set_llik_set_llik.
    replace (llik_old (set_llik c x)) with (llik_old c) by (destruct c; reflexivity).
    replace (llik (set_llik c x)) with x by (destruct c; reflexivity).
    rewrite IH. f_equal. unfold sumR; simpl; lra.
Qed.

Lemma calculate_llik_outer {Smp : Type} (gd : GenotypingData) (l : list nat) :
  forall (c : Chain Smp) x,
  fold_left (fun c j =>
      fold_left (fun c i => set_llik c (llik c + get2 (llik_old c) j i))
        (seq 0 (num_samples gd)) c) l (set_llik c x)
  = set_llik c (x + sumR (map (fun j => sumR (map (fun i => get2 (llik_old c) j i)
                                                  (seq 0 (num_samples gd)))) l)).
Proof.
  induction l as [|j l IH]; intros c x; simpl.
  - unfold sumR; simpl; rewrite Rplus_0_r; reflexivity.
  - rewrite calculate_llik_inner, IH. f_equal. unfold sumR; simpl; lra.
Qed.

(** C10: [get_llik()] returns the sum over loci [j] and samples [i] of
    [llik_old[j][i]]; the only member it writes is [llik], so every
    parameter ([m], [p], [eps_*], the caches, proposal scales, counters and
    the sampler) is unchanged. *)
Theorem get_llik_sum_readonly {Smp : Type} (gd : GenotypingData) (c : Chain Smp) :
  get_llik gd c = (llik_total gd (llik_old c), set_llik c (llik_total gd (llik_old c))).
Proof.
  unfold get_llik, calculate_llik, llik_total.
  rewrite calculate_llik_outer, Rplus_0_l.
  destruct c; reflexivity.
Qed.

(** ** Loops that only touch the caches and the sampler *)

Section CacheLoops.

Variable genotyping_data : GenotypingData.
Variable lookup : Lookup.
Variable params : Parameters.
Context {Smp : Type} `{Sampler Smp}.

Lemma lliks_only_refl (c : Chain Smp) : lliks_only c c.
Proof.
  exists (llik_old c), (llik_new c), (sampler c); destruct c; reflexivity.
Qed.

Lemma lliks_only_sampler (c c' : Chain Smp) s :
  lliks_only c c' -> lliks_only c (set_sampler c' s).
Proof.
  intros (lo & ln' & s' & ->); exists lo, ln', s; destruct c; reflexivity.
Qed.

Lemma lliks_only_new (c c' : Chain Smp) x :
  lliks_only c c' -> lliks_only c (set_llik_new c' x).
Proof.
  intros (lo & ln' & s' & ->); exists lo, x, s'; destruct c; reflexivity.
Qed.

Lemma lliks_only_old (c c' : Chain Smp) x :
  lliks_only c c' -> lliks_only c (set_llik_old c' x).
Proof.
  intros (lo & ln' & s' & ->); exists x, ln', s'; destruct c; reflexivity.
Qed.

Lemma lliks_only_marg (c c' c'' : Chain Smp) og coi af en ep v :
  marg lookup params c' og coi af en ep = (v, c'') ->
  lliks_only c c' -> lliks_only c c''.
Proof.
  unfold marg. destruct (calc_genotype_marginal_llik _ _ _ _ _ _ _ _) as [v' s'].
  intros E Hc; inversion E; subst. apply lliks_only_sampler; auto.
Qed.

Lemma lliks_only_trans (c c' c'' : Chain Smp) :
  lliks_only c c' -> lliks_only c' c'' -> lliks_only c c''.
Proof.
  intros (lo & ln' & s & ->) (lo' & ln'' & s' & ->).
  exists lo', ln'', s'; destruct c; reflexivity.
Qed.

Ltac cache_step :=
  repeat match goal with
  | |- lliks_only _ (set_sampler _ _) => apply lliks_only_sampler
  | |- lliks_only _ (set_llik_new _ _) => apply lliks_only_new
  | |- lliks_only _ (set_llik_old _ _) => apply lliks_only_old
  end.

Lemma recompute_all_lliks_only (c c' : Chain Smp) en ep a b :
  recompute_all genotyping_data lookup params c en ep = (c', a, b) -> lliks_only c c'.
Proof.
  unfold recompute_all. intros E.
  set (P := fun st : Chain Smp * R * R => let '(c', _, _) := st in lliks_only c c').
  enough (HP : P (c', a, b)) by exact HP.
  rewrite <- E. apply (fold_left_invariant P).
  - intros [[c1 s1] o1] j Hc1. cbn beta iota. apply (fold_left_invariant P); [|exact Hc1].
    intros [[c2 s2] o2] i Hc2; simpl in Hc2 |- *.
    destruct (marg lookup params c2 _ _ _ _ _) as [v c3] eqn:Em.
    cbv [P]. cache_step. eapply lliks_only_marg; eauto.
  - apply lliks_only_refl.
Qed.

Lemma copy_all_lliks_only (c : Chain Smp) :
  lliks_only c (copy_all genotyping_data c).
Proof.
  unfold copy_all. apply fold_left_invariant; [|apply lliks_only_refl].
  intros c1 j Hc1. apply fold_left_invariant; auto.
  intros c2 i Hc2; cache_step; auto.
Qed.

End CacheLoops.

(** Projections through [lliks_only]. *)
Ltac lliks_only_fields H :=
  let lo := fresh "lo" in let ln' := fresh "ln" in let s := fresh "s" in
  destruct H as (lo & ln' & s & ->).

Section BlockFacts.

Variable genotyping_data : GenotypingData.
Variable lookup : Lookup.
Variable params : Parameters.
Context {Smp : Type} `{Sampler Smp}.

Lemma fold_triple_lliks_only (f : Chain Smp * R * R -> nat -> Chain Smp * R * R) :
  (forall c1 s o k c2 s' o', f (c1, s, o) k = (c2, s', o') -> lliks_only c1 c2) ->
  forall l c0 c x y c' a b,
  fold_left f l (c, x, y) = (c', a, b) -> lliks_only c0 c -> lliks_only c0 c'.
Proof.
  intros Hf l; induction l as [|k l IH]; intros c0 c x y c' a b E Hc; simpl in E.
  - inversion E; subst; auto.
  - destruct (f (c, x, y) k) as [[c2 s'] o'] eqn:Ef.
    eapply IH; [exact E|]. eapply lliks_only_trans; [exact Hc|]. eapply Hf; eauto.
Qed.

Lemma fold_chain_lliks_only (f : Chain Smp -> nat -> Chain Smp) :
  (forall c k, lliks_only c (f c k)) ->
  forall l c0 c, lliks_only c0 c -> lliks_only c0 (fold_left f l c).
Proof.
  intros Hf l; induction l as [|k l IH]; intros c0 c Hc; simpl; auto.
  apply IH. eapply lliks_only_trans; eauto.
Qed.

End BlockFacts.

Ltac marg_step :=
  intros ? ? ? ? ? ? ?; simpl;
  match goal with
  | |- context [marg ?lk ?pr ?c ?og ?coi ?af ?en ?ep] =>
      let v := fresh "v" in let c' := fresh "c" in let Em := fresh "Em" in
      destruct (marg lk pr c og coi af en ep) as [v c'] eqn:Em
  end;
  let E := fresh "E" in intros E; inversion E; subst;
  apply lliks_only_new; eapply lliks_only_marg; [eassumption | apply lliks_only_refl].

Ltac copy_step := intros ? ?; apply lliks_only_old, lliks_only_refl.

(** ** C7: out-of-range epsilon proposals *)

(** C7: in [update_eps_pos] and [update_eps_neg], a proposal outside
    [(0, max_eps_pos)] or [(0, max_eps_neg)] leaves the whole chain state as it was ([eps_pos],
    [eps_neg], both proposal variances, the acceptance counters, [llik_old],
    [llik_new], ...): only the sampler has advanced past the proposal draw. *)
Theorem update_eps_out_of_range_unchanged (gd : GenotypingData) (lookup : Lookup)
    (params : Parameters) {Smp : Type} `{Sampler Smp} (iteration : Z) (c : Chain Smp) :
  (forall prop s,
     sample_epsilon_pos (sampler c) (eps_pos c) (eps_pos_var c) = (prop, s) ->
     ~ (0 < prop < max_eps_pos params) ->
     update_eps_pos gd lookup params iteration c = set_sampler c s) /\
  (forall prop s,
     sample_epsilon_neg (sampler c) (eps_neg c) (eps_neg_var c) = (prop, s) ->
     ~ (0 < prop < max_eps_neg params) ->
     update_eps_neg gd lookup params iteration c = set_sampler c s).
Proof.
  split; intros prop s E Hout.
  - unfold update_eps_pos; rewrite E; cbn zeta.
    unfold Rltb; destruct (Rlt_dec prop (max_eps_pos params)); destruct (Rlt_dec 0 prop);
      simpl; auto; exfalso; apply Hout; split; auto.
  - unfold update_eps_neg; rewrite E; cbn zeta.
    unfold Rltb; destruct (Rlt_dec prop (max_eps_neg params)); destruct (Rlt_dec 0 prop);
      simpl; auto; exfalso; apply Hout; split; auto.
Qed.

(** ** C6: COI bounds *)

Lemma nth_set_nth_cases {A : Type} (n k : nat) (x d : A) (l : list A) :
  nth k (set_nth n x l) d = x \/ nth k (set_nth n x l) d = nth k l d.
Proof.
  revert n k; induction l as [|h t IH]; intros [|n] [|k]; simpl; auto.
Qed.

(** One sample's step (for any sample [k]) keeps the COI of sample [i] in
    [[1, max_coi]] if it was there: only [m[k]] can be written, and only
    with an in-range proposal. *)
Lemma update_m_sample_bounds_at (gd : GenotypingData) (lookup : Lookup) (params : Parameters)
    {Smp : Type} `{Sampler Smp} (iteration : Z) (c : Chain Smp) (k i : nat) :
  coi_ok params (nth i (m c) 0%Z) ->
  coi_ok params (nth i (m (update_m_sample gd lookup params iteration c k)) 0%Z).
Proof.
  intros Hi. unfold update_m_sample.
  destruct (sample_coi_delta (sampler c) _) as [delta s]; cbn zeta.
  destruct (_ =? _)%Z; [destruct c; exact Hi|].
  destruct ((_ <=? max_coi params)%Z && (0 <? _)%Z)%bool eqn:Hc; [|destruct c; exact Hi].
  apply andb_prop in Hc; destruct Hc as [Hc1 Hc2].
  apply Z.leb_le in Hc1; apply Z.ltb_lt in Hc2.
  destruct (fold_left _ _ _) as [[c1 a] b] eqn:E1.
  assert (Hl : lliks_only (set_sampler c s) c1).
  { eapply fold_triple_lliks_only; [|exact E1|apply lliks_only_refl]. marg_step. }
  destruct (sample_log_mh_acceptance (sampler c1)) as [u s2]; cbn zeta.
  destruct Hl as (lo & ln' & s1 & ->).
  destruct (Rleb u (a - b)).
  - match goal with
    | |- context [fold_left ?f ?l ?c0] =>
        assert (Hl2 : lliks_only c0 (fold_left f l c0))
          by (apply fold_chain_lliks_only; [copy_step | apply lliks_only_refl])
    end.
    destruct Hl2 as (lo' & ln'' & s3 & E3). rewrite E3. destruct c; simpl in *.
    destruct (nth_set_nth_cases k i (delta + nth k m0 0)%Z 0%Z m0) as [E|E]; rewrite E;
      [unfold coi_ok; lia|exact Hi].
  - destruct c; exact Hi.
Qed.

(** C6: for every sample [i], if [1 <= m[i] <= max_coi] holds before
    [update_m], it holds after, whatever the other samples' COIs are; a
    proposal that differs from [m[i]] and lies outside [[1, max_coi]] is
    dropped: the chain is left as it was (no adaptation of [m_prop_mean],
    no counter, no cache write), only the sampler has advanced past the
    delta draw. *)
Theorem update_m_coi_bounds (gd : GenotypingData) (lookup : Lookup) (params : Parameters)
    {Smp : Type} `{Sampler Smp} (iteration : Z) (c : Chain Smp) :
  (forall i, coi_ok params (nth i (m c) 0%Z) ->
   coi_ok params (nth i (m (update_m gd lookup params iteration c)) 0%Z)) /\
  (forall i delta s,
     sample_coi_delta (sampler c) (nth i (m_prop_mean c) 0) = (delta, s) ->
     (delta + nth i (m c) 0 <> nth i (m c) 0)%Z ->
     ~ coi_ok params (delta + nth i (m c) 0)%Z ->
     update_m_sample gd lookup params iteration c i = set_sampler c s).
Proof.
  split.
  - intros i Hi. unfold update_m.
    apply (fold_left_invariant (fun c => coi_ok params (nth i (m c) 0%Z))); auto.
    intros c1 k Hk; apply update_m_sample_bounds_at; auto.
  - intros i delta s E Hne Hout. unfold update_m_sample; rewrite E; cbn zeta.
    replace (m (set_sampler c s)) with (m c) by (destruct c; reflexivity).
    apply Z.eqb_neq in Hne; rewrite Hne.
    destruct ((_ <=? max_coi params)%Z && (0 <? _)%Z)%bool eqn:Hc; [|reflexivity].
    exfalso; apply Hout. apply andb_prop in Hc; destruct Hc as [Hc1 Hc2].
    apply Z.leb_le in Hc1; apply Z.ltb_lt in Hc2. unfold coi_ok; lia.
Qed.

(** ** C4: proposal scales *)

Lemma UNDERFLO_pos : 0 < UNDERFLO.
Proof. unfold UNDERFLO; apply Rinv_0_lt_compat, pow_lt; lra. Qed.

Lemma adapt_step_nonneg (iteration : Z) : 0 <= (1 - 23/100) / sqrt (IZR iteration).
Proof.
  unfold Rdiv. apply Rmult_le_pos; [lra|].
  destruct (Req_dec (sqrt (IZR iteration)) 0) as [E|E].
  - rewrite E, Rinv_0; lra.
  - apply Rlt_le, Rinv_0_lt_compat. pose proof (sqrt_pos (IZR iteration)); lra.
Qed.

Lemma update_p_locus_scales (gd : GenotypingData) (lookup : Lookup) (params : Parameters)
    {Smp : Type} `{Sampler Smp} (iteration : Z) (c : Chain Smp) (j : nat) :
  scales_ok c -> scales_ok (update_p_locus gd lookup params iteration c j).
Proof.
  unfold scales_ok; intros (H1 & H2 & H3). unfold update_p_locus.
  destruct (sample_allele_frequencies (sampler c) _ _) as [pp s]; cbn zeta.
  destruct (fold_left _ _ _) as [[c1 a] b] eqn:E1.
  assert (Hl : lliks_only (set_prop_p (set_sampler c s) pp) c1).
  { eapply fold_triple_lliks_only; [|exact E1|apply lliks_only_refl]. marg_step. }
  destruct (sample_log_mh_acceptance (sampler c1)) as [u s2]; cbn zeta.
  destruct Hl as (lo & ln' & s1 & ->).
  destruct (Rleb u (a - b)).
  - match goal with
    | |- context [fold_left ?f ?l ?c0] =>
        assert (Hl2 : lliks_only c0 (fold_left f l c0))
          by (apply fold_chain_lliks_only; [copy_step | apply lliks_only_refl])
    end.
    destruct Hl2 as (lo' & ln'' & s3 & E3). rewrite E3. destruct c; simpl in *.
    repeat split; auto. apply Forall_set_nth; auto. apply exp_pos.
  - destruct c; simpl in *. repeat split; auto. apply Forall_set_nth; auto. apply exp_pos.
Qed.

Lemma update_p_scales (gd : GenotypingData) (lookup : Lookup) (params : Parameters)
    {Smp : Type} `{Sampler Smp} (iteration : Z) (c : Chain Smp) :
  scales_ok c -> scales_ok (update_p gd lookup params iteration c).
Proof.
  unfold update_p. intros Hc. apply (fold_left_invariant scales_ok); auto.
  intros; apply update_p_locus_scales; auto.
Qed.

Lemma update_eps_pos_scales (gd : GenotypingData) (lookup : Lookup) (params : Parameters)
    {Smp : Type} `{Sampler Smp} (iteration : Z) (c : Chain Smp) :
  scales_ok c -> scales_ok (update_eps_pos gd lookup params iteration c).
Proof.
  unfold scales_ok; intros (H1 & H2 & H3). unfold update_eps_pos.
  destruct (sample_epsilon_pos (sampler c) _ _) as [pe s]; cbn zeta.
  destruct (Rltb pe (max_eps_pos params) && Rltb 0 pe)%bool;
    [|destruct c; simpl in *; repeat split; auto].
  destruct (recompute_all gd lookup params _ _ _) as [[c1 a] b] eqn:E1.
  apply recompute_all_lliks_only in E1.
  destruct (sample_log_mh_acceptance (sampler c1)) as [u s2]; cbn zeta.
  destruct E1 as (lo & ln' & s1 & ->).
  destruct (Rleb u (a - b)).
  - match goal with
    | |- context [copy_all ?g ?c0] => destruct (copy_all_lliks_only g c0) as (lo' & ln'' & s3 & E3)
    end.
    rewrite E3. destruct c; simpl in *. pose proof (adapt_step_nonneg iteration).
    repeat split; auto; lra.
  - destruct c; simpl in *.
    unfold Rltb; destruct (Rlt_dec _ UNDERFLO); simpl; repeat split; auto; lra.
Qed.

Lemma update_eps_neg_scales (gd : GenotypingData) (lookup : Lookup) (params : Parameters)
    {Smp : Type} `{Sampler Smp} (iteration : Z) (c : Chain Smp) :
  scales_ok c -> scales_ok (update_eps_neg gd lookup params iteration c).
Proof.
  unfold scales_ok; intros (H1 & H2 & H3). unfold update_eps_neg.
  destruct (sample_epsilon_neg (sampler c) _ _) as [pe s]; cbn zeta.
  destruct (Rltb pe (max_eps_neg params) && Rltb 0 pe)%bool;
    [|destruct c; simpl in *; repeat split; auto].
  destruct (recompute_all gd lookup params _ _ _) as [[c1 a] b] eqn:E1.
  apply recompute_all_lliks_only in E1.
  destruct (sample_log_mh_acceptance (sampler c1)) as [u s2]; cbn zeta.
  destruct E1 as (lo & ln' & s1 & ->).
  destruct (Rleb u (a - b)).
  - match goal with
    | |- context [copy_all ?g ?c0] => destruct (copy_all_lliks_only g c0) as (lo' & ln'' & s3 & E3)
    end.
    rewrite E3. destruct c; simpl in *. pose proof (adapt_step_nonneg iteration).
    repeat split; auto; lra.
  - destruct c; simpl in *.
    unfold Rltb; destruct (Rlt_dec _ UNDERFLO); simpl; repeat split; auto; lra.
Qed.

(** C4 (as the code has it): after [update_p], [update_eps_pos] and
    [update_eps_neg], [eps_pos_var] and [eps_neg_var] are still at or above
    [UNDERFLO] (the epsilon blocks floor them), and every [p_prop_var[j]] is
    still strictly positive ([update_p] adapts it multiplicatively, with no
    floor). *)
Theorem scales_after_blocks (gd : GenotypingData) (lookup : Lookup) (params : Parameters)
    {Smp : Type} `{Sampler Smp} (iteration : Z) (c : Chain Smp) :
  scales_ok c ->
  scales_ok (update_eps_neg gd lookup params iteration
               (update_eps_pos gd lookup params iteration
                  (update_p gd lookup params iteration c))).
Proof.
  intros Hc. apply update_eps_neg_scales, update_eps_pos_scales, update_p_scales, Hc.
Qed.

(** ** Kernel loops *)

Lemma Forall_nth_default {A : Type} (P : A -> Prop) (l : list A) (d : A) (a : nat) :
  Forall P l -> P d -> P (nth a l d).
Proof.
  intros HF H0. destruct (Nat.lt_ge_cases a (length l)) as [Ha|Ha].
  - rewrite Forall_forall in HF; apply HF, nth_In, Ha.
  - rewrite nth_overflow by exact Ha; exact H0.
Qed.

(** [for (j ...) v[i] += V(j);] *)
Lemma fold_accumulate_at (i : nat) (V : nat -> R) (k : nat) (l : list R) :
  (i < length l)%nat ->
  fold_left (fun l j => set_nth i (nth i l 0 + V j) l) (seq 0 k) l
  = set_nth i (nth i l 0 + sumR (map V (seq 0 k))) l.
Proof.
  intros Hi; induction k as [|k IH].
  - simpl. unfold sumR; simpl. rewrite Rplus_0_r, set_nth_nth_same; auto.
  - rewrite sumR_seq_S, seq_S, fold_left_app, IH; simpl.
    rewrite nth_set_nth_eq, set_nth_set_nth_same by auto. f_equal; lra.
Qed.

Lemma obs_lliks_nth (og : list Z) (tg : list (list Z)) (en ep : R) (n : Z) (d : nat) :
  (Z.to_nat n <= length tg)%nat -> (d < Z.to_nat n)%nat ->
  nth d (calc_obs_genotype_lliks og tg en ep n) 0
  = sumR (map (fun j =>
        let t := nth j (nth d tg []) 0%Z in
        if (nth j og 0 =? 0)%Z
        then (if (t =? 0)%Z then ln (1 - ep) else IZR t * ln en)
        else (if (t =? 0)%Z then ln ep else IZR t * ln (1 - en)))
      (seq 0 (length (nth d tg [])))).
Proof.
  intros Hn Hd. unfold calc_obs_genotype_lliks.
  set (S := fun i => sumR (map (fun j =>
        let t := nth j (nth i tg []) 0%Z in
        if (nth j og 0 =? 0)%Z
        then (if (t =? 0)%Z then ln (1 - ep) else IZR t * ln en)
        else (if (t =? 0)%Z then ln ep else IZR t * ln (1 - en)))
      (seq 0 (length (nth i tg []))))).
  rewrite (fold_left_ext_inv (fun l => length l = length tg) _
             (fun l i => set_nth i ((fun i x => x + S i) i (nth i l 0)) l)).
  - rewrite (fold_set_map (fun i x => x + S i)) by (rewrite repeat_length; auto).
    rewrite app_nth1 by (rewrite length_map, length_seq; auto).
    rewrite nth_map_seq by auto. rewrite nth_repeat. unfold S; lra.
  - intros l i Hi Hl. apply in_seq in Hi.
    rewrite fold_accumulate_at by lia.
    split; [reflexivity|]. rewrite length_set_nth; auto.
  - apply repeat_length.
Qed.

Lemma log_pmf_nth (lookup : Lookup) (gs : list (list Z)) (coi : Z) (pi : list R) (n : Z) (d : nat) :
  (d < Z.to_nat n)%nat ->
  nth d (calc_genotype_log_pmf lookup gs coi pi n) 0
  = lookup_lgamma lookup (coi + 1)
    + sumR (map (fun a =>
          let g := nth a (nth d gs []) 0%Z in
          if (0 <? g)%Z
          then IZR g * ln (nth a pi 0 + one_em12) - lookup_lgamma lookup (g + 1)
          else 0)
        (seq 0 (length pi))).
Proof.
  intros Hd. unfold calc_genotype_log_pmf.
  set (T := fun a j =>
          let g := nth a (nth j gs []) 0%Z in
          if (0 <? g)%Z
          then IZR g * ln (nth a pi 0 + one_em12) - lookup_lgamma lookup (g + 1)
          else 0).
  set (n' := Z.to_nat n).
  assert (Hk : forall k, fold_left (fun res i =>
      let log_prob := ln (nth i pi 0 + one_em12) in
      fold_left (fun res j =>
          let g := nth i (nth j gs []) 0%Z in
          if (0 <? g)%Z
          then set_nth j (nth j res 0 + (IZR g * log_prob - lookup_lgamma lookup (g + 1))) res
          else res)
        (seq 0 n') res)
    (seq 0 k) (repeat (lookup_lgamma lookup (coi + 1)) n')
    = map (fun j => lookup_lgamma lookup (coi + 1) + sumR (map (fun a => T a j) (seq 0 k)))
          (seq 0 n')).
  { induction k as [|k IH].
    - simpl. apply nth_ext with (d := 0) (d' := 0).
      + rewrite repeat_length, length_map, length_seq; auto.
      + intros j Hj. rewrite repeat_length in Hj.
        rewrite nth_repeat_lt, nth_map_seq by auto. unfold sumR; simpl; lra.
    - rewrite seq_S, fold_left_app, IH. simpl.
      rewrite (fold_left_ext_inv (fun l => length l = n') _
                 (fun l j => set_nth j ((fun j x => x + T k j) j (nth j l 0)) l)).
      + rewrite (fold_set_map (fun j x => x + T k j)) by (rewrite length_map, length_seq; auto).
        rewrite skipn_all2 by (rewrite length_map, length_seq; auto).
        rewrite app_nil_r. apply map_ext_in. intros j Hj. apply in_seq in Hj.
        rewrite nth_map_seq by lia.
        replace (seq 0 k ++ [k]) with (seq 0 (S k)) by (rewrite seq_S; reflexivity).
        rewrite (sumR_seq_S (fun a => T a j)). lra.
      + intros l j Hj Hl. apply in_seq in Hj. unfold T. cbn zeta.
        destruct (0 <? nth k (nth j gs []) 0)%Z.
        * split; [reflexivity|]. rewrite length_set_nth; auto.
        * split; [|auto]. rewrite Rplus_0_r, set_nth_nth_same; auto; lia.
      + rewrite length_map, length_seq; auto. }
  rewrite Hk, nth_map_seq by auto. reflexivity.
Qed.

Lemma emission_code_spec (og g : list Z) (en ep : R) :
  Forall (fun o => o = 0%Z \/ o = 1%Z) og -> Forall (fun x => (0 <= x)%Z) g ->
  length g = length og ->
  sumR (map (fun j =>
        let t := nth j g 0%Z in
        if (nth j og 0 =? 0)%Z
        then (if (t =? 0)%Z then ln (1 - ep) else IZR t * ln en)
        else (if (t =? 0)%Z then ln ep else IZR t * ln (1 - en)))
      (seq 0 (length g)))
  = emission_spec og g en ep.
Proof.
  intros Ho Hg Hlen. unfold emission_spec. rewrite Hlen. apply sumR_ext.
  intros a Ha. cbn zeta.
  assert (Hoa : nth a og 0%Z = 0%Z \/ nth a og 0%Z = 1%Z)
    by (apply (Forall_nth_default (fun o => o = 0%Z \/ o = 1%Z)); auto).
  assert (Hta : (0 <= nth a g 0)%Z)
    by (apply (Forall_nth_default (fun x => (0 <= x)%Z)); auto; lia).
  destruct (Z.eq_dec (nth a g 0%Z) 0) as [Ht|Ht].
  - rewrite Ht. destruct Hoa as [Ho0|Ho1]; [rewrite Ho0|rewrite Ho1]; reflexivity.
  - assert (E1 : (nth a g 0 =? 0)%Z = false) by (apply Z.eqb_neq; auto).
    assert (E2 : (0 <? nth a g 0)%Z = true) by (apply Z.ltb_lt; lia).
    rewrite E1, E2. destruct Hoa as [Ho0|Ho1]; [rewrite Ho0|rewrite Ho1]; reflexivity.
Qed.

Lemma log_pmf_code_spec (lookup : Lookup) (coi : Z) (pi : list R) (g : list Z) :
  lookup_lgamma lookup 1 = 0 -> Forall (fun x => (0 <= x)%Z) g ->
  lookup_lgamma lookup (coi + 1)
  + sumR (map (fun a =>
        let gg := nth a g 0%Z in
        if (0 <? gg)%Z
        then IZR gg * ln (nth a pi 0 + one_em12) - lookup_lgamma lookup (gg + 1)
        else 0)
      (seq 0 (length pi)))
  = log_pmf_spec lookup coi pi g.
Proof.
  intros Hlg1 Hg. unfold log_pmf_spec.
  rewrite (sumR_ext _ (fun a => IZR (nth a g 0%Z) * ln (nth a pi 0 + one_em12)
                               - lookup_lgamma lookup (nth a g 0%Z + 1))).
  - rewrite sumR_minus; lra.
  - intros a _. cbn zeta.
    assert (Hta : (0 <= nth a g 0)%Z)
      by (apply (Forall_nth_default (fun x => (0 <= x)%Z)); auto; lia).
    destruct (0 <? nth a g 0)%Z eqn:E; [reflexivity|].
    apply Z.ltb_ge in E. assert (Hz : nth a g 0%Z = 0%Z) by lia.
    rewrite Hz; simpl. rewrite Hlg1; lra.
Qed.

(** ** C3: emission *)

(** C3: for every drawn genotype [g] (non-negative counts, one per allele)
    and every 0/1 observation vector, the log-likelihood that
    [calc_obs_genotype_lliks] computes for [g] is the sum over alleles of
    [g_a log(1-e-)] (obs 1, g_a>0), [log e+] (obs 1, g_a=0),
    [g_a log e-] (obs 0, g_a>0) and [log(1-e+)] (obs 0, g_a=0). *)
Theorem calc_obs_genotype_lliks_emission (og : list Z) (tg : list (list Z)) (en ep : R)
    (n : Z) (d : nat) :
  Forall (fun o => o = 0%Z \/ o = 1%Z) og ->
  (Z.to_nat n <= length tg)%nat -> (d < Z.to_nat n)%nat ->
  Forall (fun x => (0 <= x)%Z) (nth d tg []) -> length (nth d tg []) = length og ->
  nth d (calc_obs_genotype_lliks og tg en ep n) 0 = emission_spec og (nth d tg []) en ep.
Proof.
  intros Ho Hn Hd Hg Hlen. rewrite obs_lliks_nth by auto.
  apply emission_code_spec; auto.
Qed.

(** ** C8: multinomial log-pmf *)

(** C8: with the log-Gamma table at [lnG(1) = 0], the value
    [calc_genotype_log_pmf] computes for a drawn genotype [g] (non-negative
    counts) is [lnG(coi+1) - sum_a lnG(g_a+1) + sum_a g_a log(pi_a + 1e-12)];
    the alleles with [g_a = 0] that the code skips contribute zero. *)
Theorem calc_genotype_log_pmf_formula (lookup : Lookup) (gs : list (list Z)) (coi : Z)
    (pi : list R) (n : Z) (d : nat) :
  lookup_lgamma lookup 1 = 0 ->
  (d < Z.to_nat n)%nat -> Forall (fun x => (0 <= x)%Z) (nth d gs []) ->
  nth d (calc_genotype_log_pmf lookup gs coi pi n) 0 = log_pmf_spec lookup coi pi (nth d gs []).
Proof.
  intros Hlg1 Hd Hg. rewrite log_pmf_nth by auto. apply log_pmf_code_spec; auto.
Qed.

(** ** C5: the proposal frequencies *)

Lemma sumR_scale (f : nat -> R) (c : R) (l : list nat) :
  sumR (map (fun a => f a * c) l) = sumR (map f l) * c.
Proof.
  unfold sumR; induction l as [|a l IH]; simpl; [lra|]; rewrite IH; lra.
Qed.

Lemma sumR_pos (f : nat -> R) (l : list nat) :
  l <> [] -> (forall a, In a l -> 0 < f a) -> 0 < sumR (map f l).
Proof.
  unfold sumR; induction l as [|a l IH]; intros Hne Hf; [congruence|]. simpl.
  assert (Ha : 0 < f a) by (apply Hf; simpl; auto).
  destruct l as [|b l]; simpl; [lra|].
  assert (0 < fold_right Rplus 0 (map f (b :: l))) by
    (apply IH; [congruence| intros x Hx; apply Hf; simpl in *; tauto]).
  simpl in *; lra.
Qed.

Lemma reweight_closed (af : list R) (og : list Z) (en ep : R) :
  reweight_allele_frequencies af og en ep
  = map (fun i => reweight_term af og en ep i
                  * (1 / sumR (map (reweight_term af og en ep) (seq 0 (length af)))))
        (seq 0 (length af)).
Proof.
  unfold reweight_allele_frequencies.
  set (n := length af).
  match goal with
  | |- context [fold_left ?f (seq 0 n) (repeat 0 n, 0)] =>
      assert (H1 : forall k, (k <= n)%nat ->
                fold_left f (seq 0 k) (repeat 0 n, 0)
                = (map (reweight_term af og en ep) (seq 0 k) ++ repeat 0 (n - k),
                   sumR (map (reweight_term af og en ep) (seq 0 k))))
  end.
  { induction k as [|k IH]; intros Hk.
    - simpl. rewrite Nat.sub_0_r. reflexivity.
    - replace (seq 0 (S k)) with (seq 0 k ++ [k]) by (rewrite seq_S; reflexivity).
      rewrite fold_left_app, IH by lia. simpl.
      replace (n - k)%nat with (S (n - S k)) by lia. simpl repeat.
      rewrite set_nth_app_at by (rewrite length_map, length_seq; auto).
      rewrite map_app, sumR_app, <- app_assoc. simpl.
      f_equal; unfold reweight_term; cbn zeta; try reflexivity; lra. }
  rewrite H1 by lia. rewrite Nat.sub_diag; simpl repeat; rewrite app_nil_r. cbn zeta.
  rewrite (fold_set_map (fun i x => x * (1 / sumR (map (reweight_term af og en ep) (seq 0 n)))))
    by (rewrite length_map, length_seq; auto).
  rewrite length_map, length_seq, skipn_all2 by (rewrite length_map, length_seq; auto).
  rewrite app_nil_r. apply map_ext_in. intros i Hi. apply in_seq in Hi.
  rewrite nth_map_seq by lia. reflexivity.
Qed.

Lemma reweight_term_pos (af : list R) (og : list Z) (en ep : R) (i : nat) :
  Forall (fun x => 0 <= x) af -> Forall (fun o => o = 0%Z \/ o = 1%Z) og ->
  0 < en < 1 -> 0 <= ep -> 0 < reweight_term af og en ep i.
Proof.
  intros Ha Ho Hen Hep. unfold reweight_term, one_em6.
  assert (Hai : 0 <= nth i af 0) by (apply (Forall_nth_default (fun x => 0 <= x)); auto; lra).
  assert (Hoi : nth i og 0%Z = 0%Z \/ nth i og 0%Z = 1%Z)
    by (apply (Forall_nth_default (fun o => o = 0%Z \/ o = 1%Z)); auto).
  assert (H6 : 0 < / 10 ^ 6) by (apply Rinv_0_lt_compat, pow_lt; lra).
  assert (Hf : 0 <= nth i af 0 * (IZR (nth i og 0%Z) * (1 - en) + (1 - IZR (nth i og 0%Z)) * en)).
  { apply Rmult_le_pos; auto. destruct Hoi as [E|E]; rewrite E; simpl; lra. }
  lra.
Qed.

(** C5: for a non-empty frequency vector with non-negative entries, a 0/1
    observation vector, [0 < eps_neg < 1] and [eps_pos >= 0],
    [reweight_allele_frequencies] returns a vector of the same length whose
    entries are strictly positive and sum to 1. *)
Theorem reweight_allele_frequencies_simplex (af : list R) (og : list Z) (en ep : R) :
  (1 <= length af)%nat -> Forall (fun x => 0 <= x) af ->
  Forall (fun o => o = 0%Z \/ o = 1%Z) og -> 0 < en < 1 -> 0 <= ep ->
  length (reweight_allele_frequencies af og en ep) = length af /\
  sumR (reweight_allele_frequencies af og en ep) = 1 /\
  Forall (fun x => 0 < x) (reweight_allele_frequencies af og en ep).
Proof.
  intros Hn Ha Ho Hen Hep. rewrite reweight_closed.
  assert (HS : 0 < sumR (map (reweight_term af og en ep) (seq 0 (length af)))).
  { apply sumR_pos.
    - destruct (length af) as [|k]; [lia|]; simpl; congruence.
    - intros; apply reweight_term_pos; auto. }
  split; [|split].
  - rewrite length_map, length_seq; reflexivity.
  - rewrite (sumR_scale (reweight_term af og en ep)). field. lra.
  - apply Forall_forall. intros x Hx. apply in_map_iff in Hx. destruct Hx as (i & <- & _).
    apply Rmult_lt_0_compat; [apply reweight_term_pos; auto|].
    unfold Rdiv; rewrite Rmult_1_l; apply Rinv_0_lt_compat; auto.
Qed.

(** ** C1: the importance-sampling estimator *)

Lemma marginal_reduce_sum (ws : list R) (depth : Z) :
  marginal_reduce ws depth = ln (1 / IZR depth * sumR (map exp ws)).
Proof.
  unfold marginal_reduce. rewrite (fold_left_plus_sumR exp). f_equal. unfold Rdiv; ring.
Qed.

Lemma calc_genotype_marginal_llik_eq (lookup : Lookup) (params : Parameters)
    {Smp : Type} `{Sampler Smp} (s : Smp) (og : list Z) (coi : Z) (af : list R)
    (en ep : R) (gs : list (list Z)) (s' : Smp) :
  lookup_lgamma lookup 1 = 0 ->
  Forall (fun o => o = 0%Z \/ o = 1%Z) og ->
  sample_genotype s coi (reweight_allele_frequencies af og en ep)
                  (sampling_depth_for lookup params coi af) = (gs, s') ->
  (Z.to_nat (sampling_depth_for lookup params coi af) <= length gs)%nat ->
  (forall d, (d < Z.to_nat (sampling_depth_for lookup params coi af))%nat ->
     Forall (fun x => (0 <= x)%Z) (nth d gs []) /\ length (nth d gs []) = length og) ->
  calc_genotype_marginal_llik lookup params s og coi af en ep
  = (marginal_spec lookup og coi af (reweight_allele_frequencies af og en ep) en ep gs
                   (sampling_depth_for lookup params coi af), s').
Proof.
  intros Hlg1 Ho Hs Hlen Hg. unfold calc_genotype_marginal_llik; cbn zeta.
  rewrite Hs. f_equal. unfold marginal_spec. rewrite marginal_reduce_sum.
  do 2 f_equal. rewrite map_map. f_equal. apply map_ext_in. intros d Hd. apply in_seq in Hd.
  destruct (Hg d ltac:(lia)) as [Hgd Hld].
  rewrite obs_lliks_nth, !log_pmf_nth by lia.
  rewrite emission_code_spec by auto. rewrite !log_pmf_code_spec by auto.
  reflexivity.
Qed.

(** C1: [calc_genotype_marginal_llik] returns
    [log((1/D) sum_d exp(log P(obs|g_d) + log p*(g_d) - log q(g_d)))] where
    [D = min(importance_sampling_depth, sampling_depth[coi][A])]
    ([sampling_depth_for]), [q] is the reweighted proposal and [g_1..g_D]
    are the genotypes the sampler draws from [Multinomial(coi, q)] (with
    non-negative counts, one per allele); the log-Gamma table has
    [lnG(1) = 0]. *)
Theorem calc_genotype_marginal_llik_estimator (lookup : Lookup) (params : Parameters)
    {Smp : Type} `{Sampler Smp} (s : Smp) (og : list Z) (coi : Z) (af : list R)
    (en ep : R) (gs : list (list Z)) (s' : Smp) :
  lookup_lgamma lookup 1 = 0 ->
  Forall (fun o => o = 0%Z \/ o = 1%Z) og ->
  sample_genotype s coi (reweight_allele_frequencies af og en ep)
                  (sampling_depth_for lookup params coi af) = (gs, s') ->
  (Z.to_nat (sampling_depth_for lookup params coi af) <= length gs)%nat ->
  (forall d, (d < Z.to_nat (sampling_depth_for lookup params coi af))%nat ->
     Forall (fun x => (0 <= x)%Z) (nth d gs []) /\ length (nth d gs []) = length og) ->
  calc_genotype_marginal_llik lookup params s og coi af en ep
  = (marginal_spec lookup og coi af (reweight_allele_frequencies af og en ep) en ep gs
                   (sampling_depth_for lookup params coi af), s').
Proof.
  intros; apply calc_genotype_marginal_llik_eq; auto.
Qed.

(** ** C2: the reduction on doubles *)

Lemma exp_nat_mult (n : nat) (x : R) : exp (INR n * x) = exp x ^ n.
Proof.
  induction n as [|n IH].
  - simpl. rewrite Rmult_0_l, exp_0; reflexivity.
  - rewrite S_INR, Rmult_plus_distr_r, Rmult_1_l, exp_plus, IH. simpl; ring.
Qed.

Lemma two_pow_1075_le_exp_1000 : 2 ^ 1075 <= exp 1000.
Proof.
  replace 1000 with (INR 2000 * (1 / 2))
    by (rewrite INR_IZR_INZ; simpl Z.of_nat; lra).
  rewrite exp_nat_mult.
  assert (He : 3 / 2 <= exp (1 / 2)) by (pose proof (exp_ineq1 (1 / 2)); lra).
  assert (Hp : (3 / 2) ^ 2000 <= exp (1 / 2) ^ 2000) by (apply pow_incr; lra).
  assert (Hz : 2 ^ 1075 * 2 ^ 2000 <= 3 ^ 2000).
  { rewrite <- pow_add, !pow_IZR. apply IZR_le, Z.leb_le. vm_compute. reflexivity. }
  assert (H32 : 3 ^ 2000 = 2 ^ 2000 * (3 / 2) ^ 2000)
    by (rewrite <- Rpow_mult_distr; f_equal; lra).
  assert (Hpos : 0 < 2 ^ 2000) by (apply pow_lt; lra).
  assert (H1 : 2 ^ 1075 <= (3 / 2) ^ 2000).
  { apply (Rmult_le_reg_l (2 ^ 2000)); auto. rewrite <- H32, Rmult_comm; exact Hz. }
  lra.
Qed.

Lemma exp_le_neg1000_underflows (w : R) : w <= -1000 -> exp_f64 w = 0.
Proof.
  intros Hw. unfold exp_f64, Rleb. destruct (Rle_dec (exp w) (/ 2 ^ 1075)) as [_|Hn]; auto.
  exfalso; apply Hn.
  assert (Hx : exp w <= exp (-1000)).
  { destruct (Req_dec w (-1000)) as [->|Hne]; [lra|].
    apply Rlt_le, exp_increasing; lra. }
  assert (Hinv : exp (-1000) <= / 2 ^ 1075).
  { replace (-1000) with (Ropp 1000) by lra. rewrite exp_Ropp.
    apply Rinv_le_contravar; [apply pow_lt; lra | apply two_pow_1075_le_exp_1000]. }
  lra.
Qed.

Lemma fold_underflow (ws : list R) (x : R) :
  Forall (fun w => w <= -1000) ws ->
  fold_left (fun res w => res + exp_f64 w) ws x = x.
Proof.
  intros Hws; revert x; induction Hws as [|w ws Hw _ IH]; intros x; simpl; auto.
  rewrite exp_le_neg1000_underflows by auto. rewrite Rplus_0_r; auto.
Qed.

(** C2 (as the code has it): lines 279-289 add the [exp] of the per-draw log
    weights naively, with no subtraction of a maximum; when every log weight
    is at or below -1000, so that every [exp] underflows to [0.0] in double
    precision, the sum is [0] and the result is [log 0 = -inf] (for any
    [D >= 1]). *)
Theorem marginal_reduce_f64_all_underflow (ws : list R) (depth : Z) :
  (1 <= depth)%Z -> Forall (fun w => w <= -1000) ws ->
  marginal_reduce_f64 ws depth = NegInf.
Proof.
  intros Hd Hws. unfold marginal_reduce_f64. rewrite fold_underflow by auto.
  destruct (depth =? 0)%Z eqn:E; [apply Z.eqb_eq in E; lia|].
  unfold log_f64, Rltb. unfold Rdiv; rewrite Rmult_0_l.
  destruct (Rlt_dec 0 0); [lra|]. destruct (Rlt_dec 0 0); [lra|]. reflexivity.
Qed.

(** C2 fails: with one draw ([D = 1]) of finite log weight [-1000] the
    code's reduction yields [-inf], not the maximum log term minus [log D]. *)
Lemma marginal_reduce_f64_neg_inf :
  marginal_reduce_f64 [-1000] 1 = NegInf /\
  marginal_reduce_f64 [-1000] 1 <> Fin (-1000 - ln 1).
Proof.
  assert (E : marginal_reduce_f64 [-1000] 1 = NegInf).
  { apply marginal_reduce_f64_all_underflow; [lia|]. repeat constructor; lra. }
  split; [exact E|]. rewrite E; discriminate.
Qed.

(** ** C9: [initialize_p] at a locus with no observed allele *)

Lemma nth_set_nth_same_P {A : Type} (P : A -> Prop) (i : nat) (x d : A) (l : list A) :
  P x -> P (nth i l d) -> P (nth i (set_nth i x l) d).
Proof.
  revert i; induction l as [|h t IH]; intros [|i] Hx Hl; simpl in *; auto.
Qed.

Lemma fold_set_map_gen {A : Type} (d : A) (F : nat -> A) (l : list A) (k : nat) :
  (k <= length l)%nat ->
  fold_left (fun l i => set_nth i (F i) l) (seq 0 k) l = map F (seq 0 k) ++ skipn k l.
Proof.
  induction k as [|k IH]; intros Hk; [simpl; auto|].
  rewrite seq_S, fold_left_app, IH by lia; simpl.
  assert (Hs : skipn k l = nth k l d :: skipn (S k) l).
  { clear IH. revert k Hk; induction l as [|h t IHl]; intros [|k] Hk; simpl in *; try lia; auto.
    apply IHl; lia. }
  rewrite Hs.
  assert (Hlen : length (map F (seq 0 k)) = k) by (rewrite length_map, length_seq; auto).
  rewrite <- Hlen at 1. rewrite set_nth_app_length.
  rewrite map_app, <- app_assoc; reflexivity.
Qed.

Lemma count_locus_alleles_frame (i i' : nat) (obs_l : list (list Z)) (tla : list (list Z)) (ta : list Z) :
  i <> i' ->
  let '(tla', ta') := count_locus_alleles i obs_l (tla, ta) in
  length tla' = length tla /\ length ta' = length ta /\
  nth i' tla' [] = nth i' tla [] /\ nth i' ta' 0%Z = nth i' ta 0%Z.
Proof.
  intros Hne. unfold count_locus_alleles.
  match goal with |- context [fold_left ?f ?l ?st] =>
    assert (H : (fun s0 => let '(tla', ta') := s0 in
       length tla' = length tla /\ length ta' = length ta /\
       nth i' tla' [] = nth i' tla [] /\ nth i' ta' 0%Z = nth i' ta 0%Z) (fold_left f l st)) end.
  - apply fold_left_invariant; [|repeat split; auto].
    intros st j Hst. apply fold_left_invariant; auto.
    intros [tla1 ta1] k (H1 & H2 & H3 & H4).
    destruct (Nat.eqb j 0); rewrite !length_set_nth, !nth_set_nth_neq by auto; auto.
  - exact H.
Qed.

Lemma nth_all_zero (l : list Z) (k : nat) : Forall (fun x => x = 0%Z) l -> nth k l 0%Z = 0%Z.
Proof. intros H; apply (Forall_nth_default (fun x => x = 0%Z)); auto. Qed.

Lemma count_locus_alleles_zero (i : nat) (obs_l : list (list Z)) (tla : list (list Z)) (ta : list Z) :
  Forall (Forall (fun x => x = 0%Z)) obs_l ->
  Forall (fun x => x = 0%Z) (nth i tla []) -> nth i ta 0%Z = 0%Z ->
  let '(tla', ta') := count_locus_alleles i obs_l (tla, ta) in
  Forall (fun x => x = 0%Z) (nth i tla' []) /\ nth i ta' 0%Z = 0%Z.
Proof.
  intros Hobs Htla Hta. unfold count_locus_alleles.
  match goal with |- context [fold_left ?f ?l ?st] =>
    assert (H : (fun s0 => let '(tla', ta') := s0 in
       Forall (fun x => x = 0%Z) (nth i tla' []) /\ nth i ta' 0%Z = 0%Z) (fold_left f l st)) end.
  - apply fold_left_invariant; [|split; auto].
    intros st j Hst. apply fold_left_invariant; auto.
    intros [tla1 ta1] k [H1 H2].
    assert (Hs : nth k (nth j obs_l []) 0%Z = 0%Z)
      by (apply nth_all_zero, (Forall_nth_default (Forall (fun x => x = 0%Z))); auto).
    set (tla2 := if Nat.eqb j 0 then set_nth i (nth i tla1 [] ++ [0%Z]) tla1 else tla1).
    assert (H3 : Forall (fun x => x = 0%Z) (nth i tla2 [])).
    { unfold tla2; destruct (Nat.eqb j 0); auto.
      apply nth_set_nth_same_P; auto. apply Forall_app; auto. }
    simpl. rewrite Hs. split.
    + apply nth_set_nth_same_P; auto. apply Forall_set_nth; auto.
      rewrite nth_all_zero by auto. reflexivity.
    + apply nth_set_nth_same_P; auto. rewrite H2; reflexivity.
  - exact H.
Qed.

Lemma fill_p_app (i A : nat) (tla : list (list Z)) (ta : list Z)
    (p0 : list (list PrimFloat.float)) (row : list PrimFloat.float) :
  length p0 = i -> (A <= length row)%nat ->
  fill_p i A tla ta (p0 ++ [row]) =
  p0 ++ [map (fun j => PrimFloat.div (Z_to_double (nth j (nth i tla []) 0%Z))
                                     (Z_to_double (nth i ta 0%Z))) (seq 0 A) ++ skipn A row].
Proof.
  intros Hp HA. unfold fill_p.
  rewrite <- (fold_set_map_gen PrimFloat.zero) by auto.
  clear HA. generalize (seq 0 A); intros l. revert row; induction l as [|j l IH]; intros row; simpl; auto.
  rewrite app_nth2 by lia. rewrite Hp, Nat.sub_diag. simpl.
  rewrite set_nth_app_at by auto. apply IH.
Qed.

Lemma initialize_p_prefix (gd : GenotypingData) (j k : nat) :
  (k <= num_loci gd)%nat -> (j < num_loci gd)%nat ->
  Forall (Forall (fun x => x = 0%Z)) (nth j (observed_alleles gd) []) ->
  let '(tla, ta, p) := fold_left (initialize_p_locus gd) (seq 0 k)
                         (repeat [] (num_loci gd), repeat 0%Z (num_loci gd), []) in
  length tla = (num_loci gd + k)%nat /\ length ta = (num_loci gd + k)%nat /\ length p = k /\
  (forall i, (k <= i < num_loci gd)%nat -> nth i tla [] = [] /\ nth i ta 0%Z = 0%Z) /\
  ((j < k)%nat -> nth j ta 0%Z = 0%Z /\
     nth j p [] = map (fun _ => PrimFloat.div (Z_to_double 0) (Z_to_double 0))
                      (seq 0 (nth j (num_alleles gd) 0%nat))).
Proof.
  intros Hk Hj Hobs. induction k as [|k IH].
  - simpl. rewrite !repeat_length, Nat.add_0_r.
    split; [auto|split; [auto|split; [auto|split]]]; [|lia].
    intros i _; split; apply nth_repeat.
  - rewrite seq_S, fold_left_app.
    destruct (fold_left (initialize_p_locus gd) (seq 0 k) _) as [[tla ta] p] eqn:Est.
    destruct (IH ltac:(lia)) as (Hl1 & Hl2 & Hl3 & Hfree & Hdone). clear IH.
    cbn [fold_left Nat.add]. unfold initialize_p_locus.
    set (A := nth k (num_alleles gd) 0%nat).
    destruct (count_locus_alleles k (nth k (observed_alleles gd) []) (tla ++ [repeat 0%Z A], ta ++ [0%Z]))
      as [tla2 ta2] eqn:Ec.
    assert (Hfr : forall i', i' <> k ->
      nth i' tla2 [] = nth i' (tla ++ [repeat 0%Z A]) [] /\ nth i' ta2 0%Z = nth i' (ta ++ [0%Z]) 0%Z).
    { intros i' Hne. pose proof (count_locus_alleles_frame k i' (nth k (observed_alleles gd) [])
        (tla ++ [repeat 0%Z A]) (ta ++ [0%Z]) (not_eq_sym Hne)) as Hf.
      rewrite Ec in Hf. tauto. }
    pose proof (count_locus_alleles_frame k (S k) (nth k (observed_alleles gd) [])
        (tla ++ [repeat 0%Z A]) (ta ++ [0%Z]) ltac:(lia)) as Hlen.
    rewrite Ec, !length_app in Hlen. simpl in Hlen. destruct Hlen as (Hlen1 & Hlen2 & _).
    rewrite fill_p_app by (auto; rewrite repeat_length; lia).
    rewrite (skipn_all2 (repeat PrimFloat.zero A)) by (rewrite repeat_length; lia).
    rewrite app_nil_r.
    split; [lia|]. split; [lia|]. split; [rewrite length_app; simpl; lia|]. split.
    + intros i Hi. destruct (Hfr i ltac:(lia)) as [E1 E2]. rewrite E1, E2.
      rewrite !app_nth1 by lia. apply Hfree; lia.
    + intros Hjk. destruct (Nat.eq_dec j k) as [->|Hne].
      * assert (Hz0 := Hfree k ltac:(lia)). destruct Hz0 as [Hz1 Hz2].
        pose proof (count_locus_alleles_zero k (nth k (observed_alleles gd) [])
          (tla ++ [repeat 0%Z A]) (ta ++ [0%Z]) Hobs) as Hz.
        rewrite !app_nth1 in Hz by lia. rewrite Hz1, Hz2, Ec in Hz.
        destruct (Hz (Forall_nil _) eq_refl) as [Hz3 Hz4]. split; auto.
        rewrite app_nth2 by lia. rewrite Hl3, Nat.sub_diag. simpl.
        apply map_ext. intros a. rewrite Hz4, nth_all_zero by auto. reflexivity.
      * destruct (Hfr j Hne) as [E1 E2]. rewrite E2, !app_nth1 by lia.
        apply Hdone; lia.
Qed.

Lemma fold_add_nan (l : list nat) (v : PrimFloat.float) :
  PrimFloat.add v v = v -> fold_left PrimFloat.add (map (fun _ => v) l) v = v.
Proof. intros Hv; induction l as [|x l IH]; simpl; auto. rewrite Hv; exact IH. Qed.

(** C9: if at locus [j] every sample's observation vector (in range,
    length [A_j >= 1], at least one sample) is all zeros, [initialize_p]
    leaves [total_alleles[j] = 0] and computes every [p[j][a]] as
    [0.0 / 0.0]: each entry is NaN (and [0 <= p[j][a]] is false), and the
    double sum of [p[j]] is NaN, so not [1]. The construction returns this
    [p] without rejecting the input. *)
Theorem initialize_p_zero_locus_nan (gd : GenotypingData) (j : nat) :
  (j < num_loci gd)%nat ->
  (1 <= nth j (num_alleles gd) 0)%nat ->
  nth j (observed_alleles gd) [] <> [] ->
  Forall (fun g => length g = nth j (num_alleles gd) 0%nat) (nth j (observed_alleles gd) []) ->
  Forall (Forall (fun x => x = 0%Z)) (nth j (observed_alleles gd) []) ->
  nth j (total_alleles_of gd) 0%Z = 0%Z /\
  length (nth j (initialize_p gd) []) = nth j (num_alleles gd) 0%nat /\
  (forall a, (a < nth j (num_alleles gd) 0)%nat ->
     PrimFloat.is_nan (nth a (nth j (initialize_p gd) []) PrimFloat.zero) = true /\
     PrimFloat.leb PrimFloat.zero (nth a (nth j (initialize_p gd) []) PrimFloat.zero) = false) /\
  PrimFloat.is_nan (fsum (nth j (initialize_p gd) [])) = true /\
  PrimFloat.eqb (fsum (nth j (initialize_p gd) [])) (Z_to_double 1) = false.
Proof.
  intros Hj HA _ _ Hobs.
  pose proof (initialize_p_prefix gd j (num_loci gd) (le_n _) Hj Hobs) as H.
  unfold total_alleles_of, initialize_p, initialize_p_state. cbv zeta.
  revert H. destruct (fold_left (initialize_p_locus gd) _ _) as [[tla ta] p].
  intros (_ & _ & _ & _ & Hd). destruct (Hd Hj) as [Hta Hp]. rewrite Hta, Hp.
  set (nanv := PrimFloat.div (Z_to_double 0) (Z_to_double 0)).
  assert (Hnan : PrimFloat.is_nan nanv = true) by (vm_compute; reflexivity).
  assert (Hle : PrimFloat.leb PrimFloat.zero nanv = false) by (vm_compute; reflexivity).
  assert (Hsum : fsum (map (fun _ => nanv) (seq 0 (nth j (num_alleles gd) 0%nat))) = nanv).
  { destruct (nth j (num_alleles gd) 0%nat) as [|A']; [lia|].
    unfold fsum. cbn [seq map fold_left].
    replace (PrimFloat.add PrimFloat.zero nanv) with nanv by (vm_compute; reflexivity).
    apply fold_add_nan. vm_compute; reflexivity. }
  rewrite Hsum. split; [reflexivity|]. split; [rewrite length_map, length_seq; reflexivity|].
  split; [|split; [exact Hnan | vm_compute; reflexivity]].
  intros a Ha. rewrite nth_map_seq by auto. auto.
Qed.

(** ** C4: a concrete rejected allele-frequency proposal *)

Lemma ex_marg_value :
  calc_genotype_marginal_llik ex_lookup ex_params tt [1; 0]%Z 1 [1 / 2; 1 / 2] (1 / 10) (1 / 10)
  = (marginal_spec ex_lookup [1; 0]%Z 1 [1 / 2; 1 / 2]
       (reweight_allele_frequencies [1 / 2; 1 / 2] [1; 0]%Z (1 / 10) (1 / 10))
       (1 / 10) (1 / 10) [[1; 0]%Z] 1, tt).
Proof.
  apply calc_genotype_marginal_llik_eq.
  - simpl. rewrite ln_1; reflexivity.
  - constructor; [right; reflexivity|constructor; [left; reflexivity|constructor]].
  - reflexivity.
  - reflexivity.
  - intros d Hd. simpl in Hd. destruct d; [|lia]. simpl; split; [repeat constructor; lia|reflexivity].
Qed.

Lemma ex_marg_bound :
  marginal_spec ex_lookup [1; 0]%Z 1 [1 / 2; 1 / 2]
    (reweight_allele_frequencies [1 / 2; 1 / 2] [1; 0]%Z (1 / 10) (1 / 10))
    (1 / 10) (1 / 10) [[1; 0]%Z] 1 < -1 / 1000.
Proof.
  rewrite reweight_closed. unfold marginal_spec.
  change (Z.to_nat 1) with 1%nat. unfold sumR. simpl seq. cbn [map fold_right nth].
  assert (E1 : emission_spec [1; 0]%Z [1; 0]%Z (1 / 10) (1 / 10) = ln (1 - 1 / 10) + ln (1 - 1 / 10)).
  { unfold emission_spec, sumR. simpl. ring. }
  assert (E2 : forall a b, log_pmf_spec ex_lookup 1 [a; b] [1; 0]%Z = ln (a + one_em12)).
  { intros a b. unfold log_pmf_spec, sumR. simpl. rewrite ln_1. ring. }
  simpl seq. cbn [map]. rewrite E1, !E2.
  assert (He6 : 0 < one_em6) by (apply Rinv_0_lt_compat, pow_lt; lra).
  assert (He12 : 0 < one_em12) by (apply Rinv_0_lt_compat, pow_lt; lra).
  assert (R0 : reweight_term [1 / 2; 1 / 2] [1; 0]%Z (1 / 10) (1 / 10) 0 = 11 / 20 + one_em6)
    by (unfold reweight_term; simpl; lra).
  assert (R1 : reweight_term [1 / 2; 1 / 2] [1; 0]%Z (1 / 10) (1 / 10) 1 = 3 / 20 + one_em6)
    by (unfold reweight_term; simpl; lra).
  rewrite R0, R1.
  match goal with |- ln (_ * (exp ?X + 0)) < _ =>
    replace (1 / 1 * (exp X + 0)) with (exp X) by lra; rewrite ln_exp end.
  assert (Hq : 1 / 2 < (11 / 20 + one_em6) * (1 / (11 / 20 + one_em6 + (3 / 20 + one_em6 + 0)))).
  { set (S := 11 / 20 + one_em6 + (3 / 20 + one_em6 + 0)).
    assert (HS : 0 < S) by (unfold S; lra).
    apply (Rmult_lt_reg_r S); [exact HS|].
    replace ((11 / 20 + one_em6) * (1 / S) * S) with (11 / 20 + one_em6) by (field; lra).
    unfold S; lra. }
  assert (Hln : ln (1 / 2 + one_em12)
                < ln ((11 / 20 + one_em6) * (1 / (11 / 20 + one_em6 + (3 / 20 + one_em6 + 0))) + one_em12))
    by (apply ln_increasing; lra).
  assert (H9 : ln (1 - 1 / 10) < - (1 / 10)).
  { assert (Hn : ln (1 - 1 / 10) < 0) by (rewrite <- ln_1; apply ln_increasing; lra).
    pose proof (exp_ineq1 (ln (1 - 1 / 10)) ltac:(lra)) as Hx.
    rewrite exp_ln in Hx by lra. lra. }
  lra.
Qed.

Lemma ex_update_p_var :
  nth 0 (p_prop_var (update_p ex_data ex_lookup ex_params 1 ex_chain)) 0 < UNDERFLO.
Proof.
  unfold update_p. simpl seq. cbn [fold_left]. unfold update_p_locus, marg.
  cbn -[calc_genotype_marginal_llik Rplus Rminus Rmult Rdiv ln exp sqrt IZR Rle_dec Rlt_dec Rleb UNDERFLO].
  rewrite ex_marg_value.
  cbn -[marginal_spec reweight_allele_frequencies Rplus Rminus Rmult Rdiv ln exp sqrt IZR Rle_dec Rlt_dec Rleb UNDERFLO].
  unfold Rleb. destruct (Rle_dec _ _) as [Hle|_]; [pose proof ex_marg_bound; lra|].
  cbn. rewrite sqrt_1. unfold Rminus. rewrite exp_plus, exp_ln by apply UNDERFLO_pos.
  replace (23 / 100 / 1) with (23 / 100) by field.
  assert (Hx : exp (- (23 / 100)) < 1)
    by (pose proof (exp_increasing (- (23 / 100)) 0 ltac:(lra)) as Hx; rewrite exp_0 in Hx; exact Hx).
  pose proof UNDERFLO_pos. nra.
Qed.

Lemma ex_update_eps_pos_var (c : Chain unit) :
  p_prop_var (update_eps_pos ex_data ex_lookup ex_params 1 c) = p_prop_var c.
Proof.
  unfold update_eps_pos. cbn -[Rltb]. unfold Rltb.
  destruct (Rlt_dec (1 / 2) (1 / 5)); [lra|]. reflexivity.
Qed.

Lemma ex_update_eps_neg_var (c : Chain unit) :
  p_prop_var (update_eps_neg ex_data ex_lookup ex_params 1 c) = p_prop_var c.
Proof.
  unfold update_eps_neg. cbn -[Rltb]. unfold Rltb.
  destruct (Rlt_dec (1 / 2) (1 / 5)); [lra|]. reflexivity.
Qed.

(** C4 fails for [p_prop_var]: from a chain whose scales are all at
    [UNDERFLO], iteration 1, a rejected allele-frequency proposal (the
    sampler's [log U = -0.001] exceeds the log-likelihood change, which is
    below [-0.2]) sets [p_prop_var[0] = exp (log UNDERFLO - 0.23)], below
    [UNDERFLO]; the two epsilon blocks (out-of-range proposals) leave it so. *)
Lemma update_blocks_p_prop_var_below_underflo :
  scales_ok ex_chain /\
  UNDERFLO <= nth 0 (p_prop_var ex_chain) 0 /\
  nth 0 (p_prop_var (update_eps_neg ex_data ex_lookup ex_params 1
          (update_eps_pos ex_data ex_lookup ex_params 1
            (update_p ex_data ex_lookup ex_params 1 ex_chain)))) 0 < UNDERFLO.
Proof.
  pose proof UNDERFLO_pos.
  split; [unfold scales_ok; simpl; repeat split; try lra; repeat constructor; lra|].
  split; [simpl; lra|].
  rewrite ex_update_eps_neg_var, ex_update_eps_pos_var. apply ex_update_p_var.
Qed.

(** * Witnesses: each theorem with hypotheses, applied to the concrete run *)

Lemma calc_genotype_marginal_llik_estimator_witness :
  lookup_lgamma ex_lookup 1 = 0 /\
  calc_genotype_marginal_llik ex_lookup ex_params tt [1; 0]%Z 1 [1 / 2; 1 / 2] (1 / 10) (1 / 10)
  = (marginal_spec ex_lookup [1; 0]%Z 1 [1 / 2; 1 / 2]
       (reweight_allele_frequencies [1 / 2; 1 / 2] [1; 0]%Z (1 / 10) (1 / 10))
       (1 / 10) (1 / 10) [[1; 0]%Z] 1, tt).
Proof.
  split; [simpl; apply ln_1|].
  apply (calc_genotype_marginal_llik_estimator ex_lookup ex_params tt [1; 0]%Z 1 [1 / 2; 1 / 2]
           (1 / 10) (1 / 10) [[1; 0]%Z] tt).
  - simpl; apply ln_1.
  - constructor; [right; reflexivity|constructor; [left; reflexivity|constructor]].
  - reflexivity.
  - simpl; lia.
  - intros d Hd. simpl in Hd. destruct d; [|lia].
    simpl; split; [repeat constructor; discriminate|reflexivity].
Defined.

Lemma marginal_reduce_f64_all_underflow_witness :
  (1 <= 1)%Z /\ Forall (fun w => w <= -1000) [-1000; -2000] /\
  marginal_reduce_f64 [-1000; -2000] 1 = NegInf.
Proof.
  split; [lia|]. split; [repeat constructor; lra|].
  apply marginal_reduce_f64_all_underflow; [lia|repeat constructor; lra].
Defined.

Lemma calc_obs_genotype_lliks_emission_witness :
  nth 0 (calc_obs_genotype_lliks [1; 0]%Z [[1; 0]%Z] (1 / 10) (1 / 10) 1) 0
  = emission_spec [1; 0]%Z [1; 0]%Z (1 / 10) (1 / 10).
Proof.
  apply (calc_obs_genotype_lliks_emission [1; 0]%Z [[1; 0]%Z] (1 / 10) (1 / 10) 1 0).
  - constructor; [right; reflexivity|constructor; [left; reflexivity|constructor]].
  - simpl; lia.
  - simpl; lia.
  - simpl; repeat constructor; discriminate.
  - reflexivity.
Defined.

Lemma scales_after_blocks_witness :
  scales_ok ex_chain /\
  scales_ok (update_eps_neg ex_data ex_lookup ex_params 1
               (update_eps_pos ex_data ex_lookup ex_params 1
                  (update_p ex_data ex_lookup ex_params 1 ex_chain))).
Proof.
  assert (Hc : scales_ok ex_chain).
  { pose proof UNDERFLO_pos. unfold scales_ok; simpl; repeat split; try lra; repeat constructor; lra. }
  split; [exact Hc|]. apply scales_after_blocks; exact Hc.
Defined.

Lemma reweight_allele_frequencies_simplex_witness :
  length (reweight_allele_frequencies [1 / 2; 1 / 2] [1; 0]%Z (1 / 10) (1 / 10)) = 2%nat /\
  sumR (reweight_allele_frequencies [1 / 2; 1 / 2] [1; 0]%Z (1 / 10) (1 / 10)) = 1 /\
  Forall (fun x => 0 < x) (reweight_allele_frequencies [1 / 2; 1 / 2] [1; 0]%Z (1 / 10) (1 / 10)).
Proof.
  apply (reweight_allele_frequencies_simplex [1 / 2; 1 / 2] [1; 0]%Z (1 / 10) (1 / 10)).
  - simpl; lia.
  - repeat constructor; lra.
  - constructor; [right; reflexivity|constructor; [left; reflexivity|constructor]].
  - lra.
  - lra.
Defined.

Lemma update_m_coi_bounds_witness :
  coi_ok ex_params (nth 1 (m (set_m ex_chain [10; 2]%Z)) 0%Z) /\
  coi_ok ex_params (nth 1 (m (update_m ex_data ex_lookup ex_params 1 (set_m ex_chain [10; 2]%Z))) 0%Z) /\
  update_m_sample ex_data ex_lookup ex_params 1 ex_chain 0 = set_sampler ex_chain tt.
Proof.
  destruct (update_m_coi_bounds ex_data ex_lookup ex_params 1 (set_m ex_chain [10; 2]%Z)) as [H1 _].
  destruct (update_m_coi_bounds ex_data ex_lookup ex_params 1 ex_chain) as [_ H2].
  assert (Hc : coi_ok ex_params (nth 1 (m (set_m ex_chain [10; 2]%Z)) 0%Z))
    by (unfold coi_ok; simpl; lia).
  split; [exact Hc|]. split; [apply H1; exact Hc|].
  apply (H2 0%nat 5%Z tt).
  - reflexivity.
  - simpl; lia.
  - unfold coi_ok; simpl; lia.
Defined.

Lemma update_eps_out_of_range_unchanged_witness :
  ~ (0 < 1 / 2 < max_eps_pos ex_params) /\
  update_eps_pos ex_data ex_lookup ex_params 1 ex_chain = set_sampler ex_chain tt /\
  update_eps_neg ex_data ex_lookup ex_params 1 ex_chain = set_sampler ex_chain tt.
Proof.
  destruct (update_eps_out_of_range_unchanged ex_data ex_lookup ex_params 1 ex_chain) as [H1 H2].
  split; [simpl; lra|]. split.
  - apply (H1 (1 / 2) tt); [reflexivity|simpl; lra].
  - apply (H2 (1 / 2) tt); [reflexivity|simpl; lra].
Defined.

Lemma calc_genotype_log_pmf_formula_witness :
  nth 0 (calc_genotype_log_pmf ex_lookup [[1; 0]%Z] 1 [1 / 2; 1 / 2] 1) 0
  = log_pmf_spec ex_lookup 1 [1 / 2; 1 / 2] [1; 0]%Z.
Proof.
  apply (calc_genotype_log_pmf_formula ex_lookup [[1; 0]%Z] 1 [1 / 2; 1 / 2] 1 0).
  - simpl; apply ln_1.
  - simpl; lia.
  - simpl; repeat constructor; discriminate.
Defined.

Lemma initialize_p_zero_locus_nan_witness :
  nth 0 (observed_alleles ex_data_unobserved) [] = [[0; 0]%Z] /\
  PrimFloat.is_nan (fsum (nth 0 (initialize_p ex_data_unobserved) [])) = true.
Proof.
  split; [reflexivity|].
  apply (initialize_p_zero_locus_nan ex_data_unobserved 0).
  - simpl; lia.
  - simpl; lia.
  - simpl; discriminate.
  - repeat constructor.
  - repeat constructor.
Defined.

(** * Further properties of the chain code *)

(** ** The epsilon blocks *)

Ltac copy_all_shape :=
  match goal with
  | |- context [copy_all ?g ?c0] =>
      let E := fresh "E" in
      destruct (copy_all_lliks_only g c0) as (lo2 & ln2 & s3 & E); rewrite E
  end.

Ltac lliks_solve :=
  repeat (apply lliks_only_sampler || apply lliks_only_new || apply lliks_only_old);
  apply lliks_only_refl.

Lemma set_eps_pos_var_twice {Smp : Type} (c : Chain Smp) x y :
  set_eps_pos_var (set_eps_pos_var c x) y = set_eps_pos_var c y.
Proof. destruct c; reflexivity. Qed.

Lemma set_eps_neg_var_twice {Smp : Type} (c : Chain Smp) x y :
  set_eps_neg_var (set_eps_neg_var c x) y = set_eps_neg_var c y.
Proof. destruct c; reflexivity. Qed.

(** What a call of [update_eps_pos] can do: nothing but advance the sampler
    (proposal out of range), or refresh the caches and then either commit an
    in-range proposal with its counter, or shrink (and floor) the scale. *)
Lemma update_eps_pos_cases (gd : GenotypingData) (lookup : Lookup) (params : Parameters)
    {Smp : Type} `{Sampler Smp} (iteration : Z) (c : Chain Smp) :
  let c' := update_eps_pos gd lookup params iteration c in
  (exists s, c' = set_sampler c s) \/
  (exists c1 prop,
     lliks_only c c1 /\ 0 < prop < max_eps_pos params /\
     c' = set_eps_pos_accept (set_eps_pos_var (set_eps_pos c1 prop)
            (eps_pos_var c + (1 - 23/100) / sqrt (IZR iteration))) (eps_pos_accept c + 1)%Z) \/
  (exists c1 v, lliks_only c c1 /\ c' = set_eps_pos_var c1 v).
Proof.
  cbv zeta. unfold update_eps_pos.
  destruct (sample_epsilon_pos (sampler c) _ _) as [pe s]; cbn zeta.
  destruct (Rltb pe (max_eps_pos params) && Rltb 0 pe)%bool eqn:Hr; [|left; exists s; reflexivity].
  apply andb_prop in Hr; destruct Hr as [Hr1 Hr2].
  unfold Rltb in Hr1, Hr2. destruct (Rlt_dec pe _) in Hr1; [|discriminate].
  destruct (Rlt_dec 0 pe) in Hr2; [|discriminate].
  destruct (recompute_all gd lookup params _ _ _) as [[c1 a] b] eqn:E1.
  apply recompute_all_lliks_only in E1.
  destruct (sample_log_mh_acceptance (sampler c1)) as [u s2]; cbn zeta.
  destruct E1 as (lo & ln' & s1 & ->).
  destruct (Rleb u (a - b)).
  - right; left. copy_all_shape.
    exists (set_sampler (set_llik_new (set_llik_old c lo2) ln2) s3), pe.
    split; [eexists _, _, _; destruct c; reflexivity|]. split; [lra|].
    destruct c; reflexivity.
  - right; right. unfold Rltb. destruct (Rlt_dec _ UNDERFLO); cbv iota.
    + rewrite set_eps_pos_var_twice. eexists _, _; split; cycle 1; [reflexivity|]. lliks_solve.
    + eexists _, _; split; cycle 1; [reflexivity|]. lliks_solve.
Qed.

Lemma update_eps_neg_cases (gd : GenotypingData) (lookup : Lookup) (params : Parameters)
    {Smp : Type} `{Sampler Smp} (iteration : Z) (c : Chain Smp) :
  let c' := update_eps_neg gd lookup params iteration c in
  (exists s, c' = set_sampler c s) \/
  (exists c1 prop,
     lliks_only c c1 /\ 0 < prop < max_eps_neg params /\
     c' = set_eps_neg_accept (set_eps_neg_var (set_eps_neg c1 prop)
            (eps_neg_var c + (1 - 23/100) / sqrt (IZR iteration))) (eps_neg_accept c + 1)%Z) \/
  (exists c1 v, lliks_only c c1 /\ c' = set_eps_neg_var c1 v).
Proof.
  cbv zeta. unfold update_eps_neg.
  destruct (sample_epsilon_neg (sampler c) _ _) as [pe s]; cbn zeta.
  destruct (Rltb pe (max_eps_neg params) && Rltb 0 pe)%bool eqn:Hr; [|left; exists s; reflexivity].
  apply andb_prop in Hr; destruct Hr as [Hr1 Hr2].
  unfold Rltb in Hr1, Hr2. destruct (Rlt_dec pe _) in Hr1; [|discriminate].
  destruct (Rlt_dec 0 pe) in Hr2; [|discriminate].
  destruct (recompute_all gd lookup params _ _ _) as [[c1 a] b] eqn:E1.
  apply recompute_all_lliks_only in E1.
  destruct (sample_log_mh_acceptance (sampler c1)) as [u s2]; cbn zeta.
  destruct E1 as (lo & ln' & s1 & ->).
  destruct (Rleb u (a - b)).
  - right; left. copy_all_shape.
    exists (set_sampler (set_llik_new (set_llik_old c lo2) ln2) s3), pe.
    split; [eexists _, _, _; destruct c; reflexivity|]. split; [lra|].
    destruct c; reflexivity.
  - right; right. unfold Rltb. destruct (Rlt_dec _ UNDERFLO); cbv iota.
    + rewrite set_eps_neg_var_twice. eexists _, _; split; cycle 1; [reflexivity|]. lliks_solve.
    + eexists _, _; split; cycle 1; [reflexivity|]. lliks_solve.
Qed.

Ltac eps_block_cases H :=
  let s := fresh "s" in let c1 := fresh "c1" in let prop := fresh "prop" in
  let v := fresh "v" in let lo := fresh "lo" in let ln' := fresh "ln" in
  let Hp := fresh "Hp" in
  cbv zeta in H;
  destruct H as [[s ->]|[(c1 & prop & (lo & ln' & s & ->) & Hp & ->)|(c1 & v & (lo & ln' & s & ->) & ->)]].

(** X3: [update_eps_pos] changes neither [m] nor [p] (nor their scales,
    proposals and counters), nor anything of the [eps_neg] block, nor
    [llik]: it only moves [eps_pos], its scale and counter, the caches and
    the sampler. *)
Theorem update_eps_pos_frame (gd : GenotypingData) (lookup : Lookup) (params : Parameters)
    {Smp : Type} `{Sampler Smp} (iteration : Z) (c : Chain Smp) :
  m_part (update_eps_pos gd lookup params iteration c) = m_part c /\
  p_part (update_eps_pos gd lookup params iteration c) = p_part c /\
  eps_neg_part (update_eps_pos gd lookup params iteration c) = eps_neg_part c /\
  llik (update_eps_pos gd lookup params iteration c) = llik c.
Proof.
  pose proof (update_eps_pos_cases gd lookup params iteration c) as Hc.
  eps_block_cases Hc; destruct c; repeat split; reflexivity.
Qed.

(** X4: the same for [update_eps_neg]: [m], [p], the [eps_pos] block and
    [llik] are left as they were. *)
Theorem update_eps_neg_frame (gd : GenotypingData) (lookup : Lookup) (params : Parameters)
    {Smp : Type} `{Sampler Smp} (iteration : Z) (c : Chain Smp) :
  m_part (update_eps_neg gd lookup params iteration c) = m_part c /\
  p_part (update_eps_neg gd lookup params iteration c) = p_part c /\
  eps_pos_part (update_eps_neg gd lookup params iteration c) = eps_pos_part c /\
  llik (update_eps_neg gd lookup params iteration c) = llik c.
Proof.
  pose proof (update_eps_neg_cases gd lookup params iteration c) as Hc.
  eps_block_cases Hc; destruct c; repeat split; reflexivity.
Qed.

(** X5: the error rates stay in their open ranges: if [0 < eps_pos <
    max_eps_pos] before [update_eps_pos], it holds after, and likewise for
    [eps_neg] and [update_eps_neg] (a new value is only committed when it
    lies strictly inside the range). *)
Theorem update_eps_range_invariant (gd : GenotypingData) (lookup : Lookup) (params : Parameters)
    {Smp : Type} `{Sampler Smp} (iteration : Z) (c : Chain Smp) :
  (0 < eps_pos c < max_eps_pos params ->
   0 < eps_pos (update_eps_pos gd lookup params iteration c) < max_eps_pos params) /\
  (0 < eps_neg c < max_eps_neg params ->
   0 < eps_neg (update_eps_neg gd lookup params iteration c) < max_eps_neg params).
Proof.
  split; intros Hr.
  - pose proof (update_eps_pos_cases gd lookup params iteration c) as Hc.
    eps_block_cases Hc; destruct c; simpl in *; auto.
  - pose proof (update_eps_neg_cases gd lookup params iteration c) as Hc.
    eps_block_cases Hc; destruct c; simpl in *; auto.
Qed.

(** X6: one call of [update_eps_pos] raises [eps_pos_accept] by 0 or 1,
    and [eps_pos] changes only in a call that raises it by 1; the same for
    [update_eps_neg], [eps_neg_accept] and [eps_neg]. *)
Theorem update_eps_accept_counters (gd : GenotypingData) (lookup : Lookup) (params : Parameters)
    {Smp : Type} `{Sampler Smp} (iteration : Z) (c : Chain Smp) :
  ((eps_pos_accept (update_eps_pos gd lookup params iteration c) = eps_pos_accept c \/
    eps_pos_accept (update_eps_pos gd lookup params iteration c) = eps_pos_accept c + 1)%Z /\
   (eps_pos (update_eps_pos gd lookup params iteration c) <> eps_pos c ->
    eps_pos_accept (update_eps_pos gd lookup params iteration c) = eps_pos_accept c + 1)%Z) /\
  ((eps_neg_accept (update_eps_neg gd lookup params iteration c) = eps_neg_accept c \/
    eps_neg_accept (update_eps_neg gd lookup params iteration c) = eps_neg_accept c + 1)%Z /\
   (eps_neg (update_eps_neg gd lookup params iteration c) <> eps_neg c ->
    eps_neg_accept (update_eps_neg gd lookup params iteration c) = eps_neg_accept c + 1)%Z).
Proof.
  split.
  - pose proof (update_eps_pos_cases gd lookup params iteration c) as Hc.
    eps_block_cases Hc; destruct c; simpl in *; split; auto; intros Hn; congruence.
  - pose proof (update_eps_neg_cases gd lookup params iteration c) as Hc.
    eps_block_cases Hc; destruct c; simpl in *; split; auto; intros Hn; congruence.
Qed.

(** ** The COI block *)

Lemma set_m_prop_mean_twice {Smp : Type} (c : Chain Smp) x y :
  set_m_prop_mean (set_m_prop_mean c x) y = set_m_prop_mean c y.
Proof. destruct c; reflexivity. Qed.

(** What one sample's step of [update_m] can do: accept an unchanged COI
    without evaluating the likelihood, do nothing but advance the sampler
    (proposal out of range), commit an in-range proposal after refreshing
    the caches, or reject it and lower [m_prop_mean[i]] to a value [>= 0]. *)
Lemma update_m_sample_cases (gd : GenotypingData) (lookup : Lookup) (params : Parameters)
    {Smp : Type} `{Sampler Smp} (iteration : Z) (c : Chain Smp) (i : nat) :
  let c' := update_m_sample gd lookup params iteration c i in
  let step := (1 - 23/100) / sqrt (IZR iteration) in
  exists s,
  c' = set_m_accept (set_m_prop_mean (set_sampler c s)
         (set_nth i (nth i (m_prop_mean c) 0 + step) (m_prop_mean c)))
         (set_nth i (nth i (m_accept c) 0 + 1)%Z (m_accept c)) \/
  c' = set_sampler c s \/
  (exists c1 prop, lliks_only c c1 /\ coi_ok params prop /\
     c' = set_m_accept (set_m_prop_mean (set_m c1 (set_nth i prop (m c)))
            (set_nth i (nth i (m_prop_mean c) 0 + step) (m_prop_mean c)))
            (set_nth i (nth i (m_accept c) 0 + 1)%Z (m_accept c))) \/
  (exists c1 y, lliks_only c c1 /\ 0 <= y /\ c' = set_m_prop_mean c1 (set_nth i y (m_prop_mean c))).
Proof.
  cbv zeta. unfold update_m_sample.
  destruct (sample_coi_delta (sampler c) _) as [delta s]; cbn zeta. exists s.
  destruct (_ =? _)%Z; [left; destruct c; reflexivity|].
  destruct ((_ <=? max_coi params)%Z && (0 <? _)%Z)%bool eqn:Hc; [|right; left; reflexivity].
  apply andb_prop in Hc; destruct Hc as [Hc1 Hc2].
  apply Z.leb_le in Hc1; apply Z.ltb_lt in Hc2.
  destruct (fold_left _ _ _) as [[c1 a] b] eqn:E1.
  assert (Hl : lliks_only (set_sampler c s) c1).
  { eapply fold_triple_lliks_only; [|exact E1|apply lliks_only_refl]. marg_step. }
  destruct (sample_log_mh_acceptance (sampler c1)) as [u s2]; cbn zeta.
  destruct Hl as (lo & ln' & s1 & ->).
  right; right. destruct (Rleb u (a - b)).
  - left.
    match goal with
    | |- context [fold_left ?f ?l ?c0] =>
        assert (Hl2 : lliks_only c0 (fold_left f l c0))
          by (apply fold_chain_lliks_only; [copy_step | apply lliks_only_refl])
    end.
    destruct Hl2 as (lo' & ln'' & s3 & ->).
    exists (set_sampler (set_llik_new (set_llik_old (set_sampler (set_sampler
              (set_llik_new (set_llik_old (set_sampler c s) lo) ln') s1) s2) lo') ln'') s3),
           (delta + nth i (m c) 0)%Z.
    split; [lliks_solve|]. split; [unfold coi_ok; destruct c; cbn in *; lia|]. destruct c; reflexivity.
  - right. rewrite set_m_prop_mean_twice.
    match goal with
    | |- exists _ _, _ /\ _ /\ set_m_prop_mean ?X (set_nth _ ?Y _) = _ => exists X, Y
    end.
    split; [lliks_solve|split].
    + unfold Rltb. destruct (Rlt_dec _ 0); lra.
    + destruct c; cbn. rewrite set_nth_set_nth_same. reflexivity.
Qed.

Ltac m_block_cases H :=
  cbv zeta in H;
  destruct H as [s [E|[E|[(c1 & prop & (lo & ln' & s1 & ->) & Hp & E)
                        |(c1 & y & (lo & ln' & s1 & ->) & Hy & E)]]]];
  rewrite E.

Lemma update_m_sample_frame (gd : GenotypingData) (lookup : Lookup) (params : Parameters)
    {Smp : Type} `{Sampler Smp} (iteration : Z) (c : Chain Smp) (i : nat) :
  p_part (update_m_sample gd lookup params iteration c i) = p_part c /\
  eps_pos_part (update_m_sample gd lookup params iteration c i) = eps_pos_part c /\
  eps_neg_part (update_m_sample gd lookup params iteration c i) = eps_neg_part c /\
  llik (update_m_sample gd lookup params iteration c i) = llik c.
Proof.
  pose proof (update_m_sample_cases gd lookup params iteration c i) as Hc.
  m_block_cases Hc; destruct c; repeat split; reflexivity.
Qed.

(** One sample's step leaves the COI and the counter of every other sample
    alone, and keeps the length of [m_accept]. *)
Lemma update_m_sample_other (gd : GenotypingData) (lookup : Lookup) (params : Parameters)
    {Smp : Type} `{Sampler Smp} (iteration : Z) (c : Chain Smp) (k i : nat) :
  k <> i ->
  nth i (m (update_m_sample gd lookup params iteration c k)) 0%Z = nth i (m c) 0%Z /\
  nth i (m_accept (update_m_sample gd lookup params iteration c k)) 0%Z = nth i (m_accept c) 0%Z /\
  length (m_accept (update_m_sample gd lookup params iteration c k)) = length (m_accept c).
Proof.
  intros Hki. pose proof (update_m_sample_cases gd lookup params iteration c k) as Hc.
  m_block_cases Hc; destruct c; cbn;
    rewrite ?nth_set_nth_neq, ?length_set_nth by exact Hki; auto.
Qed.

Lemma update_m_sample_self (gd : GenotypingData) (lookup : Lookup) (params : Parameters)
    {Smp : Type} `{Sampler Smp} (iteration : Z) (c : Chain Smp) (i : nat) :
  (i < length (m_accept c))%nat ->
  let c' := update_m_sample gd lookup params iteration c i in
  (nth i (m_accept c') 0 = nth i (m_accept c) 0 \/
   nth i (m_accept c') 0 = nth i (m_accept c) 0 + 1)%Z /\
  (nth i (m c') 0 <> nth i (m c) 0 -> nth i (m_accept c') 0 = nth i (m_accept c) 0 + 1)%Z /\
  length (m_accept c') = length (m_accept c).
Proof.
  intros Hi. cbv zeta.
  pose proof (update_m_sample_cases gd lookup params iteration c i) as Hc.
  m_block_cases Hc; destruct c; cbn in *;
    rewrite ?nth_set_nth_eq, ?length_set_nth by exact Hi; auto;
    repeat split; auto; intros Hn; congruence.
Qed.

Lemma fold_update_m_other (gd : GenotypingData) (lookup : Lookup) (params : Parameters)
    {Smp : Type} `{Sampler Smp} (iteration : Z) (i : nat) (l : list nat) :
  ~ In i l -> forall c : Chain Smp,
  let c' := fold_left (update_m_sample gd lookup params iteration) l c in
  nth i (m c') 0%Z = nth i (m c) 0%Z /\
  nth i (m_accept c') 0%Z = nth i (m_accept c) 0%Z /\
  length (m_accept c') = length (m_accept c).
Proof.
  induction l as [|k l IH]; intros Hn c; cbv zeta; simpl; [auto|].
  assert (Hk : k <> i) by (intros ->; apply Hn; left; reflexivity).
  destruct (update_m_sample_other gd lookup params iteration c k i Hk) as (E1 & E2 & E3).
  destruct (IH (fun h => Hn (or_intror h)) (update_m_sample gd lookup params iteration c k))
    as (F1 & F2 & F3).
  rewrite F1, F2, F3; auto.
Qed.

Lemma seq_split_at (n i : nat) :
  (i < n)%nat -> seq 0 n = seq 0 i ++ i :: seq (S i) (n - S i).
Proof.
  intros Hi. replace n with (i + S (n - S i))%nat at 1 by lia.
  rewrite seq_app. reflexivity.
Qed.

(** X1: [update_m] changes nothing of the [p] block (frequencies, proposal,
    scales, counters), nothing of the two epsilon blocks, and not [llik]:
    it only moves [m], [m_prop_mean], [m_accept], the caches and the
    sampler. *)
Theorem update_m_frame (gd : GenotypingData) (lookup : Lookup) (params : Parameters)
    {Smp : Type} `{Sampler Smp} (iteration : Z) (c : Chain Smp) :
  p_part (update_m gd lookup params iteration c) = p_part c /\
  eps_pos_part (update_m gd lookup params iteration c) = eps_pos_part c /\
  eps_neg_part (update_m gd lookup params iteration c) = eps_neg_part c /\
  llik (update_m gd lookup params iteration c) = llik c.
Proof.
  unfold update_m.
  apply (fold_left_invariant (fun c' => p_part c' = p_part c /\ eps_pos_part c' = eps_pos_part c /\
                                        eps_neg_part c' = eps_neg_part c /\ llik c' = llik c)).
  - intros c1 k (E1 & E2 & E3 & E4).
    destruct (update_m_sample_frame gd lookup params iteration c1 k) as (F1 & F2 & F3 & F4).
    rewrite F1, F2, F3, F4; auto.
  - repeat split.
Qed.

(** X7: after [update_m], the acceptance counter of each sample [i] of the
    data has risen by 0 or 1, and if [m[i]] has changed it has risen by 1
    (given a counter vector that covers [i]). *)
Theorem update_m_accept_counters (gd : GenotypingData) (lookup : Lookup) (params : Parameters)
    {Smp : Type} `{Sampler Smp} (iteration : Z) (c : Chain Smp) (i : nat) :
  (i < num_samples gd)%nat -> (i < length (m_accept c))%nat ->
  let c' := update_m gd lookup params iteration c in
  (nth i (m_accept c') 0 = nth i (m_accept c) 0 \/
   nth i (m_accept c') 0 = nth i (m_accept c) 0 + 1)%Z /\
  (nth i (m c') 0 <> nth i (m c) 0 -> nth i (m_accept c') 0 = nth i (m_accept c) 0 + 1)%Z.
Proof.
  intros Hn Hi. cbv zeta. unfold update_m.
  rewrite (seq_split_at _ _ Hn), fold_left_app. cbn [fold_left].
  set (c0 := fold_left (update_m_sample gd lookup params iteration) (seq 0 i) c).
  destruct (fold_update_m_other gd lookup params iteration i (seq 0 i)
              ltac:(rewrite in_seq; lia) c) as (A1 & A2 & A3).
  fold c0 in A1, A2, A3.
  assert (Hi0 : (i < length (m_accept c0))%nat) by lia.
  destruct (update_m_sample_self gd lookup params iteration c0 i Hi0) as (B1 & B2 & _).
  destruct (fold_update_m_other gd lookup params iteration i (seq (S i) (num_samples gd - S i))
              ltac:(rewrite in_seq; lia) (update_m_sample gd lookup params iteration c0 i))
    as (C1 & C2 & _).
  cbv zeta in C1, C2. rewrite C1, C2, <- A1, <- A2. split; auto.
Qed.

(** X9: [update_m] keeps every COI proposal scale [m_prop_mean[i]]
    non-negative: an acceptance adds a non-negative step and a rejection
    clamps the lowered value at 0. *)
Theorem update_m_prop_mean_nonneg (gd : GenotypingData) (lookup : Lookup) (params : Parameters)
    {Smp : Type} `{Sampler Smp} (iteration : Z) (c : Chain Smp) :
  Forall (Rle 0) (m_prop_mean c) ->
  Forall (Rle 0) (m_prop_mean (update_m gd lookup params iteration c)).
Proof.
  unfold update_m. apply (fold_left_invariant (fun c' => Forall (Rle 0) (m_prop_mean c'))).
  intros c0 k HF.
  pose proof (update_m_sample_cases gd lookup params iteration c0 k) as Hc.
  pose proof (adapt_step_nonneg iteration) as Hs.
  assert (H0 : 0 <= nth k (m_prop_mean c0) 0)
    by (apply Forall_nth_default; [exact HF | lra]).
  m_block_cases Hc; destruct c0; cbn in *; auto; apply Forall_set_nth; auto; lra.
Qed.

(** ** The allele-frequency block *)

(** What one locus's step of [update_p] can do: commit the proposal and
    raise the scale, or keep [p[j]] and lower the scale; in both cases the
    proposal is left in [prop_p] and only the caches and the sampler move
    besides. *)
Lemma update_p_locus_cases (gd : GenotypingData) (lookup : Lookup) (params : Parameters)
    {Smp : Type} `{Sampler Smp} (iteration : Z) (c : Chain Smp) (j : nat) :
  let c' := update_p_locus gd lookup params iteration c j in
  exists pp,
  (exists c1, lliks_only c c1 /\
     c' = set_p_prop_var (set_p_accept (set_p (set_prop_p c1 pp) (set_nth j pp (p c)))
            (set_nth j (nth j (p_accept c) 0 + 1)%Z (p_accept c)))
            (set_nth j (exp (ln (nth j (p_prop_var c) 0) + (1 - 23/100) / sqrt (IZR iteration)))
               (p_prop_var c))) \/
  (exists c1, lliks_only c c1 /\
     c' = set_p_prop_var (set_prop_p c1 pp)
            (set_nth j (exp (ln (nth j (p_prop_var c) 0) - 23/100 / sqrt (IZR iteration)))
               (p_prop_var c))).
Proof.
  cbv zeta. unfold update_p_locus.
  destruct (sample_allele_frequencies (sampler c) _ _) as [pp s]; cbn zeta. exists pp.
  destruct (fold_left _ _ _) as [[c1 a] b] eqn:E1.
  assert (Hl : lliks_only (set_prop_p (set_sampler c s) pp) c1).
  { eapply fold_triple_lliks_only; [|exact E1|apply lliks_only_refl]. marg_step. }
  destruct (sample_log_mh_acceptance (sampler c1)) as [u s2]; cbn zeta.
  destruct Hl as (lo & ln' & s1 & ->).
  destruct (Rleb u (a - b)).
  - left.
    match goal with
    | |- context [fold_left ?f ?l ?c0] =>
        assert (Hl2 : lliks_only c0 (fold_left f l c0))
          by (apply fold_chain_lliks_only; [copy_step | apply lliks_only_refl])
    end.
    destruct Hl2 as (lo' & ln'' & s3 & ->).
    exists (set_sampler (set_llik_new (set_llik_old c lo') ln'') s3).
    split; [lliks_solve|]. destruct c; reflexivity.
  - right. exists (set_sampler (set_llik_new (set_llik_old c lo) ln') s2).
    split; [lliks_solve|]. destruct c; reflexivity.
Qed.

Ltac p_block_cases H :=
  cbv zeta in H;
  destruct H as [pp [(c1 & (lo & ln' & s1 & ->) & E)|(c1 & (lo & ln' & s1 & ->) & E)]];
  rewrite E.

Lemma update_p_locus_frame (gd : GenotypingData) (lookup : Lookup) (params : Parameters)
    {Smp : Type} `{Sampler Smp} (iteration : Z) (c : Chain Smp) (j : nat) :
  m_part (update_p_locus gd lookup params iteration c j) = m_part c /\
  eps_pos_part (update_p_locus gd lookup params iteration c j) = eps_pos_part c /\
  eps_neg_part (update_p_locus gd lookup params iteration c j) = eps_neg_part c /\
  llik (update_p_locus gd lookup params iteration c j) = llik c.
Proof.
  pose proof (update_p_locus_cases gd lookup params iteration c j) as Hc.
  p_block_cases Hc; destruct c; repeat split; reflexivity.
Qed.

Lemma update_p_locus_other (gd : GenotypingData) (lookup : Lookup) (params : Parameters)
    {Smp : Type} `{Sampler Smp} (iteration : Z) (c : Chain Smp) (k j : nat) :
  k <> j ->
  nth j (p (update_p_locus gd lookup params iteration c k)) [] = nth j (p c) [] /\
  nth j (p_accept (update_p_locus gd lookup params iteration c k)) 0%Z = nth j (p_accept c) 0%Z /\
  length (p_accept (update_p_locus gd lookup params iteration c k)) = length (p_accept c).
Proof.
  intros Hkj. pose proof (update_p_locus_cases gd lookup params iteration c k) as Hc.
  p_block_cases Hc; destruct c; cbn;
    rewrite ?nth_set_nth_neq, ?length_set_nth by exact Hkj; auto.
Qed.

Lemma update_p_locus_self (gd : GenotypingData) (lookup : Lookup) (params : Parameters)
    {Smp : Type} `{Sampler Smp} (iteration : Z) (c : Chain Smp) (j : nat) :
  (j < length (p_accept c))%nat ->
  let c' := update_p_locus gd lookup params iteration c j in
  (nth j (p_accept c') 0 = nth j (p_accept c) 0 \/
   nth j (p_accept c') 0 = nth j (p_accept c) 0 + 1)%Z /\
  (nth j (p c') [] <> nth j (p c) [] -> nth j (p_accept c') 0 = nth j (p_accept c) 0 + 1)%Z.
Proof.
  intros Hj. cbv zeta.
  pose proof (update_p_locus_cases gd lookup params iteration c j) as Hc.
  p_block_cases Hc; destruct c; cbn in *;
    rewrite ?nth_set_nth_eq by exact Hj; split; auto; intros Hn; congruence.
Qed.

Lemma fold_update_p_other (gd : GenotypingData) (lookup : Lookup) (params : Parameters)
    {Smp : Type} `{Sampler Smp} (iteration : Z) (j : nat) (l : list nat) :
  ~ In j l -> forall c : Chain Smp,
  let c' := fold_left (update_p_locus gd lookup params iteration) l c in
  nth j (p c') [] = nth j (p c) [] /\
  nth j (p_accept c') 0%Z = nth j (p_accept c) 0%Z /\
  length (p_accept c') = length (p_accept c).
Proof.
  induction l as [|k l IH]; intros Hn c; cbv zeta; simpl; [auto|].
  assert (Hk : k <> j) by (intros ->; apply Hn; left; reflexivity).
  destruct (update_p_locus_other gd lookup params iteration c k j Hk) as (E1 & E2 & E3).
  destruct (IH (fun h => Hn (or_intror h)) (update_p_locus gd lookup params iteration c k))
    as (F1 & F2 & F3).
  rewrite F1, F2, F3; auto.
Qed.

(** X2: [update_p] changes nothing of the COI block, nothing of the two
    epsilon blocks, and not [llik]. *)
Theorem update_p_frame (gd : GenotypingData) (lookup : Lookup) (params : Parameters)
    {Smp : Type} `{Sampler Smp} (iteration : Z) (c : Chain Smp) :
  m_part (update_p gd lookup params iteration c) = m_part c /\
  eps_pos_part (update_p gd lookup params iteration c) = eps_pos_part c /\
  eps_neg_part (update_p gd lookup params iteration c) = eps_neg_part c /\
  llik (update_p gd lookup params iteration c) = llik c.
Proof.
  unfold update_p.
  apply (fold_left_invariant (fun c' => m_part c' = m_part c /\ eps_pos_part c' = eps_pos_part c /\
                                        eps_neg_part c' = eps_neg_part c /\ llik c' = llik c)).
  - intros c0 k (E1 & E2 & E3 & E4).
    destruct (update_p_locus_frame gd lookup params iteration c0 k) as (F1 & F2 & F3 & F4).
    rewrite F1, F2, F3, F4; auto.
  - repeat split.
Qed.

(** X8: after [update_p], the acceptance counter of each locus [j] of the
    data has risen by 0 or 1, and if the frequency vector [p[j]] has
    changed it has risen by 1 (given a counter vector that covers [j]). *)
Theorem update_p_accept_counters (gd : GenotypingData) (lookup : Lookup) (params : Parameters)
    {Smp : Type} `{Sampler Smp} (iteration : Z) (c : Chain Smp) (j : nat) :
  (j < num_loci gd)%nat -> (j < length (p_accept c))%nat ->
  let c' := update_p gd lookup params iteration c in
  (nth j (p_accept c') 0 = nth j (p_accept c) 0 \/
   nth j (p_accept c') 0 = nth j (p_accept c) 0 + 1)%Z /\
  (nth j (p c') [] <> nth j (p c) [] -> nth j (p_accept c') 0 = nth j (p_accept c) 0 + 1)%Z.
Proof.
  intros Hn Hj. cbv zeta. unfold update_p.
  rewrite (seq_split_at _ _ Hn), fold_left_app. cbn [fold_left].
  set (c0 := fold_left (update_p_locus gd lookup params iteration) (seq 0 j) c).
  destruct (fold_update_p_other gd lookup params iteration j (seq 0 j)
              ltac:(rewrite in_seq; lia) c) as (A1 & A2 & A3).
  fold c0 in A1, A2, A3.
  assert (Hj0 : (j < length (p_accept c0))%nat) by lia.
  destruct (update_p_locus_self gd lookup params iteration c0 j Hj0) as (B1 & B2).
  destruct (fold_update_p_other gd lookup params iteration j (seq (S j) (num_loci gd - S j))
              ltac:(rewrite in_seq; lia) (update_p_locus gd lookup params iteration c0 j))
    as (C1 & C2 & _).
  cbv zeta in C1, C2. rewrite C1, C2, <- A1, <- A2. split; auto.
Qed.

(** ** The log-mean-exp reduce of the marginal estimator *)

Lemma max_weight_in (w : R) (ws : list R) : In (max_weight w ws) (w :: ws).
Proof.
  unfold max_weight; induction ws as [|x ws IH]; simpl; [left; reflexivity|].
  destruct (Rle_dec x (fold_right Rmax w ws)) as [Hx|Hx].
  - rewrite Rmax_right by exact Hx.
    destruct IH as [E|E]; [left; exact E|right; right; exact E].
  - rewrite Rmax_left by lra. right; left; reflexivity.
Qed.

Lemma max_weight_ge (w : R) (ws : list R) : Forall (fun x => x <= max_weight w ws) (w :: ws).
Proof.
  unfold max_weight; induction ws as [|x ws IH]; simpl; [constructor; [lra|constructor]|].
  pose proof (Rmax_l x (fold_right Rmax w ws)) as H1.
  pose proof (Rmax_r x (fold_right Rmax w ws)) as H2.
  inversion IH as [|? ? Hw Hws]; subst.
  constructor; [lra|].
  constructor; [exact H1|].
  eapply Forall_impl; [|exact Hws]. intros a Ha; simpl in Ha; lra.
Qed.

Lemma sumR_exp_le (M : R) (l : list R) :
  Forall (fun x => x <= M) l -> sumR (map exp l) <= INR (length l) * exp M.
Proof.
  induction l as [|x l IH]; intros HF; [unfold sumR; simpl; lra|].
  cbn [map length]. inversion HF as [|? ? Hx Hl]; subst.
  specialize (IH Hl). rewrite S_INR.
  assert (exp x <= exp M) by (destruct (Req_dec x M) as [->|Ne]; [lra|left; apply exp_increasing; lra]).
  unfold sumR in *. simpl. lra.
Qed.

Lemma sumR_exp_ge (M : R) (l : list R) : In M l -> exp M <= sumR (map exp l).
Proof.
  induction l as [|x l IH]; intros Hin; [destruct Hin|].
  assert (Hpos : 0 <= sumR (map exp l)).
  { clear. induction l as [|y l IH]; unfold sumR in *; simpl; [lra|].
    pose proof (exp_pos y); lra. }
  unfold sumR in *; simpl. destruct Hin as [->|Hin].
  - lra.
  - specialize (IH Hin). pose proof (exp_pos x); lra.
Qed.

Lemma ln_le_mono (x y : R) : 0 < x -> x <= y -> ln x <= ln y.
Proof.
  intros Hx Hxy. destruct (Req_dec x y) as [->|Ne]; [lra|].
  left; apply ln_increasing; lra.
Qed.

(** X10: for a non-empty list of log weights and [D] its length, the reduce
    computed in exact arithmetic lies between [max w - ln D] and [max w]:
    it is the log of the mean of the weights. *)
Theorem marginal_reduce_between (w : R) (ws : list R) :
  max_weight w ws - ln (INR (length (w :: ws))) <=
  marginal_reduce (w :: ws) (Z.of_nat (length (w :: ws))) <= max_weight w ws.
Proof.
  rewrite marginal_reduce_sum, <- INR_IZR_INZ.
  set (M := max_weight w ws). set (n := length (w :: ws)).
  set (S := sumR (map exp (w :: ws))).
  assert (Hn : 0 < INR n) by (apply lt_0_INR; unfold n; simpl; lia).
  assert (Hlo : exp M <= S) by (apply sumR_exp_ge, max_weight_in).
  assert (Hhi : S <= INR n * exp M) by (apply sumR_exp_le, max_weight_ge).
  pose proof (exp_pos M) as HM.
  assert (Hq : exp M / INR n <= 1 / INR n * S).
  { replace (1 / INR n * S) with (S / INR n) by (field; lra).
    unfold Rdiv. apply Rmult_le_compat_r; [|exact Hlo].
    left; apply Rinv_0_lt_compat; exact Hn. }
  assert (Hq2 : 1 / INR n * S <= exp M).
  { apply (Rmult_le_reg_l (INR n)); [exact Hn|]. field_simplify; lra. }
  assert (Hp : 0 < exp M / INR n) by (apply Rdiv_lt_0_compat; lra).
  split.
  - replace (M - ln (INR n)) with (ln (exp M / INR n))
      by (unfold Rdiv; rewrite ln_mult, ln_Rinv, ln_exp; [lra|lra|apply exp_pos|apply Rinv_0_lt_compat; lra]).
    apply ln_le_mono; lra.
  - rewrite <- (ln_exp M). apply ln_le_mono; lra.
Qed.

(** ** Chain construction *)

Lemma set_nth_out {A : Type} (n : nat) (x : A) (l : list A) :
  (length l <= n)%nat -> set_nth n x l = l.
Proof.
  revert n; induction l as [|h t IH]; intros [|n] Hn; simpl in *; auto; try lia.
  rewrite IH; auto; lia.
Qed.

Lemma upd2_rows (N : nat) (ll : list (list R)) (j i : nat) (v : R) :
  Forall (fun row => length row = N) ll ->
  Forall (fun row => length row = N) (upd2 ll j i v) /\ length (upd2 ll j i v) = length ll.
Proof.
  intros HF. unfold upd2. rewrite length_set_nth. split; [|reflexivity].
  destruct (Nat.lt_ge_cases j (length ll)) as [Hj|Hj].
  - apply Forall_set_nth; [exact HF|]. rewrite length_set_nth.
    rewrite Forall_nth in HF. apply HF; exact Hj.
  - rewrite set_nth_out by exact Hj. exact HF.
Qed.

Section InitLikelihood.

Variable gd : GenotypingData.
Variable lookup : Lookup.
Variable params : Parameters.
Context {Smp : Type} `{Sampler Smp}.

Lemma init_lik_inner (c0 : Chain Smp) (j : nat) (n : nat) (l : list nat) (c : Chain Smp) :
  init_lik_inv gd c0 c n ->
  init_lik_inv gd c0 (fold_left (fun c i =>
          let '(marginal_llik, c) :=
            marg lookup params c (obs gd j i) (nth i (m c) 0%Z) (nth j (p c) [])
                 (eps_neg c) (eps_pos c) in
          let c := set_llik_old c (upd2 (llik_old c) j i marginal_llik) in
          set_llik_new c (upd2 (llik_new c) j i marginal_llik)) l c) n.
Proof.
  apply (fold_left_invariant (fun c => init_lik_inv gd c0 c n)).
  intros c1 i (Hl & Heq & Hn & HF).
  unfold marg. destruct (calc_genotype_marginal_llik _ _ _ _ _ _ _ _) as [v s]. cbv beta iota.
  destruct c1; cbn in *. subst llik_new0.
  destruct (upd2_rows _ llik_old0 j i v HF) as (HF' & Hlen).
  unfold init_lik_inv; cbn. split; [|split; [reflexivity|split; [lia|exact HF']]].
  apply lliks_only_new, lliks_only_old, lliks_only_sampler. exact Hl.
Qed.

Lemma init_lik_outer (c0 : Chain Smp) (l : list nat) (c : Chain Smp) (n : nat) :
  init_lik_inv gd c0 c n ->
  init_lik_inv gd c0 (fold_left (fun c j =>
      let c := set_llik_old c (llik_old c ++ [repeat 0 (num_samples gd)]) in
      let c := set_llik_new c (llik_new c ++ [repeat 0 (num_samples gd)]) in
      fold_left (fun c i =>
          let '(marginal_llik, c) :=
            marg lookup params c (obs gd j i) (nth i (m c) 0%Z) (nth j (p c) [])
                 (eps_neg c) (eps_pos c) in
          let c := set_llik_old c (upd2 (llik_old c) j i marginal_llik) in
          set_llik_new c (upd2 (llik_new c) j i marginal_llik))
        (seq 0 (num_samples gd)) c) l c) (n + length l).
Proof.
  revert c n; induction l as [|j l IH]; intros c n Hc; simpl; [rewrite Nat.add_0_r; exact Hc|].
  replace (n + S (length l))%nat with (S n + length l)%nat by lia.
  apply IH. cbv zeta. apply init_lik_inner.
  destruct Hc as (Hl & Heq & Hn & HF). unfold init_lik_inv.
  split; [apply lliks_only_new, lliks_only_old; exact Hl|].
  destruct c; cbn in *. subst llik_new0. split; [reflexivity|].
  rewrite length_app; cbn. split; [lia|].
  apply Forall_app; split; [exact HF|]. constructor; [apply repeat_length|constructor].
Qed.

End InitLikelihood.

Lemma init_lik_result (gd : GenotypingData) (lookup : Lookup) (params : Parameters)
    {Smp : Type} `{Sampler Smp} (c : Chain Smp) :
  llik_old c = [] -> llik_new c = [] ->
  let c' := initialize_likelihood gd lookup params c in
  lliks_only c c' /\ llik_old c' = llik_new c' /\ cache_dims gd c'.
Proof.
  intros Ho Hn. cbv zeta.
  assert (Hi : init_lik_inv gd c (initialize_likelihood gd lookup params c)
                 (0 + length (seq 0 (num_loci gd)))).
  { apply init_lik_outer.
    split; [apply lliks_only_refl|]. rewrite Ho, Hn. split; [reflexivity|split; [reflexivity|constructor]]. }
  rewrite length_seq in Hi. destruct Hi as (Hl & Heq & Hlen & HF).
  split; [exact Hl|]. split; [exact Heq|].
  unfold cache_dims. rewrite <- Heq. repeat split; auto.
Qed.

(** X11: started from empty caches (as the constructor has them),
    [initialize_likelihood] changes nothing but the caches and the sampler,
    and leaves [llik_old] and [llik_new] equal, with one row per locus and
    one entry per sample in each row. *)
Theorem initialize_likelihood_caches (gd : GenotypingData) (lookup : Lookup) (params : Parameters)
    {Smp : Type} `{Sampler Smp} (c : Chain Smp) :
  llik_old c = [] -> llik_new c = [] ->
  let c' := initialize_likelihood gd lookup params c in
  lliks_only c c' /\ llik_old c' = llik_new c' /\ cache_dims gd c'.
Proof. exact (init_lik_result gd lookup params c). Qed.

Lemma UNDERFLO_le_hundredth : UNDERFLO <= 1 / 100.
Proof.
  unfold UNDERFLO. unfold Rdiv; rewrite Rmult_1_l.
  apply Rinv_le_contravar; [lra|].
  replace 100 with (10 ^ 2) by ring. apply Rle_pow; [lra|lia].
Qed.

Lemma resize_nil_length {A : Type} (n : nat) (x : A) : length (resize n x []) = n.
Proof. unfold resize. rewrite firstn_nil, length_app, repeat_length. simpl. lia. Qed.

(** X12: the chain the constructor builds satisfies the invariants the
    update blocks rely on and keep: epsilon scales at or above [UNDERFLO]
    and positive [p] scales, non-negative COI scales, equal caches of
    dimension loci x samples, and one acceptance counter per sample and per
    locus. *)
Theorem new_chain_invariants (gd : GenotypingData) (lookup : Lookup) (params : Parameters)
    {Smp : Type} `{Sampler Smp} (s0 : Smp) :
  let c := new_chain gd lookup params s0 in
  scales_ok c /\ Forall (Rle 0) (m_prop_mean c) /\
  llik_old c = llik_new c /\ cache_dims gd c /\
  length (m_accept c) = num_samples gd /\ length (p_accept c) = num_loci gd.
Proof.
  cbv zeta. unfold new_chain.
  match goal with
  | |- context [initialize_likelihood gd lookup params ?c5] =>
      destruct (init_lik_result gd lookup params c5 eq_refl eq_refl) as (Hl & Heq & Hd);
      destruct Hl as (lo & ln' & s & E)
  end.
  rewrite E in Heq, Hd |- *. clear E. cbn in *.
  pose proof UNDERFLO_le_hundredth.
  split; [|split; [|split; [exact Heq|split; [exact Hd|split; apply resize_nil_length]]]].
  - unfold scales_ok; cbn. split; [lra|split; [lra|]].
    apply Forall_forall. intros x Hx. apply repeat_spec in Hx. lra.
  - apply Forall_forall. intros x Hx. apply repeat_spec in Hx. lra.
Qed.

(** ** Empirical allele frequencies *)

Lemma count_locus_alleles_steps (i : nat) (obs_l : list (list Z)) (st : list (list Z) * list Z) :
  count_locus_alleles i obs_l st =
  fold_left (fun st j => fold_left (count_allele_step i j (nth j obs_l [])) (seq 0 (length (nth j obs_l []))) st)
    (seq 0 (length obs_l)) st.
Proof. reflexivity. Qed.

Lemma sumZ_set_nth (k : nat) (x : Z) (l : list Z) :
  (k < length l)%nat -> sumZ (set_nth k x l) = (sumZ l - nth k l 0 + x)%Z.
Proof.
  revert k; induction l as [|h t IH]; intros [|k] Hk; simpl in *; try lia.
  rewrite IH by lia. unfold sumZ; simpl. lia.
Qed.

Lemma sumZ_app (l1 l2 : list Z) : sumZ (l1 ++ l2) = (sumZ l1 + sumZ l2)%Z.
Proof. induction l1 as [|h t IH]; unfold sumZ in *; simpl; [reflexivity|rewrite IH; lia]. Qed.

Lemma firstn_S_snoc {A : Type} (k : nat) (d : A) (l : list A) :
  (k < length l)%nat -> firstn (S k) l = firstn k l ++ [nth k l d].
Proof.
  revert k; induction l as [|h t IH]; intros [|k] Hk; simpl in *; try lia; auto.
  f_equal. apply IH. lia.
Qed.

Lemma Forall_nth_lt {A : Type} (P : A -> Prop) (l : list A) (k : nat) (d : A) :
  Forall P l -> (k < length l)%nat -> P (nth k l d).
Proof. intros HF Hk. rewrite Forall_nth in HF. apply HF; exact Hk. Qed.

(** The allele loop of one sample [g], run over its first [k] alleles, at a
    locus [i] whose row is empty for the first sample and as long as [g]
    after it. *)
Lemma count_allele_loop (i j : nat) (g : list Z) (tla : list (list Z)) (ta : list Z) (k : nat) :
  (i < length tla)%nat -> (i < length ta)%nat -> (k <= length g)%nat ->
  (j = 0%nat -> nth i tla [] = []) -> (j <> 0%nat -> length (nth i tla []) = length g) ->
  Forall (Z.le 0) g -> Forall (Z.le 0) (nth i tla []) ->
  let '(tla', ta') := fold_left (count_allele_step i j g) (seq 0 k) (tla, ta) in
  length tla' = length tla /\ length ta' = length ta /\
  length (nth i tla' []) = (if Nat.eqb j 0 then k else length g) /\
  Forall (Z.le 0) (nth i tla' []) /\
  sumZ (nth i tla' []) = (sumZ (nth i tla []) + sumZ (firstn k g))%Z /\
  nth i ta' 0%Z = (nth i ta 0 + sumZ (firstn k g))%Z.
Proof.
  intros Hi Hti Hk Hj0 Hj1 Hg Hrow. induction k as [|k IH].
  - simpl. unfold sumZ at 2; simpl. rewrite !Z.add_0_r.
    split; [reflexivity|split; [reflexivity|split; [|auto]]].
    destruct (Nat.eqb_spec j 0) as [E|E]; [rewrite Hj0; auto|auto].
  - rewrite seq_S, fold_left_app. cbn [fold_left Nat.add].
    destruct (fold_left (count_allele_step i j g) (seq 0 k) (tla, ta)) as [tla1 ta1].
    destruct (IH ltac:(lia)) as (L1 & L2 & L3 & F1 & S1 & T1). clear IH.
    unfold count_allele_step.
    set (row := nth i tla1 []).
    assert (Hgk : (0 <= nth k g 0)%Z) by (apply Forall_nth_lt; auto; lia).
    rewrite (firstn_S_snoc k 0%Z g) by lia. rewrite sumZ_app. unfold sumZ at 3; simpl.
    destruct (Nat.eqb_spec j 0) as [E|E].
    + rewrite nth_set_nth_eq by lia.
      set (row1 := row ++ [0%Z]).
      assert (Lr1 : length row1 = S k) by (unfold row1; rewrite length_app; simpl; fold row in L3; lia).
      assert (Hr1k : nth k row1 0%Z = 0%Z)
        by (unfold row1; rewrite app_nth2 by (fold row in L3; lia); fold row in L3; rewrite L3, Nat.sub_diag; reflexivity).
      assert (Sr1 : sumZ row1 = sumZ row) by (unfold row1; rewrite sumZ_app; unfold sumZ at 2; simpl; lia).
      rewrite !length_set_nth, !nth_set_nth_eq by (rewrite ?length_set_nth; lia).
      split; [lia|split; [lia|split; [rewrite length_set_nth; lia|split]]].
      * apply Forall_set_nth.
        -- unfold row1. apply Forall_app; split; [exact F1|constructor; [lia|constructor]].
        -- rewrite Hr1k. lia.
      * rewrite sumZ_set_nth by lia. rewrite Hr1k, Sr1. fold row in S1. unfold sumZ in *; simpl in *; split; lia.
    + unfold row in *.
      assert (Hrk : (k < length (nth i tla1 []))%nat) by (rewrite L3; lia).
      rewrite !length_set_nth, !nth_set_nth_eq by (rewrite ?length_set_nth; lia).
      split; [lia|split; [lia|split; [rewrite length_set_nth; lia|split]]].
      * apply Forall_set_nth; [exact F1|].
        assert (0 <= nth k (nth i tla1 []) 0)%Z by (apply Forall_nth_lt; auto). lia.
      * rewrite sumZ_set_nth by exact Hrk. unfold sumZ in *; simpl in *; split; lia.
Qed.

(** The sample loop of [count_locus_alleles] over the first [n] samples of
    a locus whose samples all have [A] alleles: the row of the locus has
    [A] non-negative counts summing to [total_alleles[i]], the total of
    the counts seen. *)
Lemma count_sample_loop (i A : nat) (obs_l : list (list Z)) (tla : list (list Z)) (ta : list Z) (n : nat) :
  (i < length tla)%nat -> (i < length ta)%nat -> (n <= length obs_l)%nat ->
  nth i tla [] = [] -> nth i ta 0%Z = 0%Z ->
  Forall (fun g => length g = A) obs_l -> Forall (Forall (Z.le 0)) obs_l ->
  let '(tla', ta') :=
    fold_left (fun st j => fold_left (count_allele_step i j (nth j obs_l []))
                             (seq 0 (length (nth j obs_l []))) st) (seq 0 n) (tla, ta) in
  length tla' = length tla /\ length ta' = length ta /\
  (n <> 0%nat -> length (nth i tla' []) = A) /\ (n = 0%nat -> nth i tla' [] = []) /\
  Forall (Z.le 0) (nth i tla' []) /\
  sumZ (nth i tla' []) = nth i ta' 0%Z /\
  nth i ta' 0%Z = sumZ (map sumZ (firstn n obs_l)).
Proof.
  intros Hi Hti Hn Hr Ht HA Hnn. induction n as [|n IH].
  - simpl. rewrite Hr, Ht. repeat split; auto; congruence.
  - rewrite seq_S, fold_left_app. cbn [fold_left Nat.add].
    destruct (fold_left _ (seq 0 n) (tla, ta)) as [tla1 ta1].
    destruct (IH ltac:(lia)) as (L1 & L2 & L3 & L4 & F1 & S1 & T1). clear IH.
    set (g := nth n obs_l []).
    assert (Hg : length g = A) by (apply (Forall_nth_lt (fun g => length g = A)); auto; lia).
    assert (Hgn : Forall (Z.le 0) g) by (apply (Forall_nth_lt (Forall (Z.le 0))); auto; lia).
    pose proof (count_allele_loop i n g tla1 ta1 (length g) ltac:(lia) ltac:(lia) (le_n _)
                  L4 ltac:(intros Hn0; rewrite Hg; auto) Hgn F1) as Hs.
    destruct (fold_left (count_allele_step i n g) _ _) as [tla2 ta2].
    destruct Hs as (M1 & M2 & M3 & F2 & S2 & T2).
    rewrite firstn_all in S2, T2.
    split; [lia|split; [lia|split; [|split; [lia|split; [exact F2|split]]]]].
    + intros _. rewrite M3. destruct (Nat.eqb n 0); lia.
    + rewrite S2, T2, S1. reflexivity.
    + rewrite T2, T1, (firstn_S_snoc n [] obs_l) by lia.
      rewrite map_app, sumZ_app. fold g. unfold sumZ; simpl. lia.
Qed.

Lemma sumZ_nonneg (l : list Z) : Forall (Z.le 0) l -> (0 <= sumZ l)%Z.
Proof. induction 1 as [|x l Hx Hl IH]; unfold sumZ in *; simpl; lia. Qed.

Lemma sumZ_pos (obs_l : list (list Z)) :
  Forall (Forall (Z.le 0)) obs_l -> Exists (Exists (Z.lt 0)) obs_l ->
  (0 < sumZ (map sumZ obs_l))%Z.
Proof.
  induction 1 as [|g obs_l Hg Hobs IH]; intros Hex; [inversion Hex|].
  assert (H0 : (0 <= sumZ (map sumZ obs_l))%Z).
  { clear IH Hex. induction Hobs as [|g' l Hg' Hl IH']; unfold sumZ in *; simpl; [lia|].
    pose proof (sumZ_nonneg g' Hg'). unfold sumZ in *. lia. }
  inversion Hex as [? ? Hgx|? ? Hr]; subst.
  - assert (0 < sumZ g)%Z.
    { clear - Hg Hgx. induction Hgx as [x l Hx|x l Hl IH']; inversion Hg; subst;
        unfold sumZ in *; simpl.
      - pose proof (sumZ_nonneg l ltac:(assumption)). unfold sumZ in *. lia.
      - specialize (IH' ltac:(assumption)). lia. }
    unfold sumZ in *; simpl. lia.
  - specialize (IH Hr). pose proof (sumZ_nonneg g Hg). unfold sumZ in *; simpl. lia.
Qed.

Lemma fill_p_R_app (i A : nat) (tla : list (list Z)) (ta : list Z)
    (p0 : list (list R)) (row : list R) :
  length p0 = i -> (A <= length row)%nat ->
  fill_p_R i A tla ta (p0 ++ [row]) =
  p0 ++ [map (fun j => IZR (nth j (nth i tla []) 0%Z) / IZR (nth i ta 0%Z)) (seq 0 A) ++ skipn A row].
Proof.
  intros Hp HA. unfold fill_p_R.
  rewrite <- (fold_set_map_gen 0) by auto.
  clear HA. generalize (seq 0 A); intros l. revert row; induction l as [|j l IH]; intros row; simpl; auto.
  rewrite app_nth2 by lia. rewrite Hp, Nat.sub_diag. simpl.
  rewrite set_nth_app_at by auto. apply IH.
Qed.

Lemma map_nth_seq_eq {A B : Type} (f : A -> B) (l : list A) (d : A) :
  map (fun j => f (nth j l d)) (seq 0 (length l)) = map f l.
Proof.
  induction l as [|h t IH]; simpl; [reflexivity|]. f_equal.
  rewrite <- seq_shift, map_map. exact IH.
Qed.

(** Dividing [A] non-negative counts by their positive total gives a
    probability vector of length [A]. *)
Lemma counts_simplex (row : list Z) (A : nat) :
  length row = A -> Forall (Z.le 0) row -> (0 < sumZ row)%Z ->
  let q := map (fun j => IZR (nth j row 0%Z) / IZR (sumZ row)) (seq 0 A) in
  length q = A /\ Forall (Rle 0) q /\ sumR q = 1.
Proof.
  intros HA Hnn Hpos. cbv zeta. subst A.
  rewrite (map_nth_seq_eq (fun x => IZR x / IZR (sumZ row))).
  assert (HT : 0 < IZR (sumZ row)) by (apply IZR_lt; exact Hpos).
  split; [rewrite length_map; reflexivity|split].
  - apply Forall_map. eapply Forall_impl; [|exact Hnn]. intros x Hx.
    unfold Rdiv. apply Rmult_le_pos; [apply IZR_le; exact Hx|left; apply Rinv_0_lt_compat; exact HT].
  - assert (E : forall l, sumR (map (fun x => IZR x / IZR (sumZ row)) l) = IZR (sumZ l) / IZR (sumZ row)).
    { induction l as [|x l IH]; unfold sumR, sumZ in *; simpl; [unfold Rdiv; ring|].
      rewrite IH, plus_IZR. field. lra. }
    rewrite E. field. lra.
Qed.

Lemma initialize_p_R_prefix (gd : GenotypingData) (j k : nat) :
  (k <= num_loci gd)%nat -> (j < num_loci gd)%nat ->
  Forall (fun g => length g = nth j (num_alleles gd) 0%nat) (nth j (observed_alleles gd) []) ->
  Forall (Forall (Z.le 0)) (nth j (observed_alleles gd) []) ->
  Exists (Exists (Z.lt 0)) (nth j (observed_alleles gd) []) ->
  let '(tla, ta, p) := fold_left (initialize_p_locus_R gd) (seq 0 k)
                         (repeat [] (num_loci gd), repeat 0%Z (num_loci gd), []) in
  length tla = (num_loci gd + k)%nat /\ length ta = (num_loci gd + k)%nat /\ length p = k /\
  (forall i, (k <= i < num_loci gd)%nat -> nth i tla [] = [] /\ nth i ta 0%Z = 0%Z) /\
  ((j < k)%nat -> length (nth j p []) = nth j (num_alleles gd) 0%nat /\
     Forall (Rle 0) (nth j p []) /\ sumR (nth j p []) = 1).
Proof.
  intros Hk Hj HA Hnn Hex. induction k as [|k IH].
  - simpl. rewrite !repeat_length, Nat.add_0_r.
    split; [auto|split; [auto|split; [auto|split]]]; [|lia].
    intros i _; split; apply nth_repeat.
  - rewrite seq_S, fold_left_app.
    destruct (fold_left (initialize_p_locus_R gd) (seq 0 k) _) as [[tla ta] p] eqn:Est.
    destruct (IH ltac:(lia)) as (Hl1 & Hl2 & Hl3 & Hfree & Hdone). clear IH.
    cbn [fold_left Nat.add]. unfold initialize_p_locus_R.
    set (A := nth k (num_alleles gd) 0%nat).
    destruct (count_locus_alleles k (nth k (observed_alleles gd) []) (tla ++ [repeat 0%Z A], ta ++ [0%Z]))
      as [tla2 ta2] eqn:Ec.
    assert (Hfr : forall i', i' <> k ->
      nth i' tla2 [] = nth i' (tla ++ [repeat 0%Z A]) [] /\ nth i' ta2 0%Z = nth i' (ta ++ [0%Z]) 0%Z).
    { intros i' Hne. pose proof (count_locus_alleles_frame k i' (nth k (observed_alleles gd) [])
        (tla ++ [repeat 0%Z A]) (ta ++ [0%Z]) (not_eq_sym Hne)) as Hf.
      rewrite Ec in Hf. tauto. }
    pose proof (count_locus_alleles_frame k (S k) (nth k (observed_alleles gd) [])
        (tla ++ [repeat 0%Z A]) (ta ++ [0%Z]) ltac:(lia)) as Hlen.
    rewrite Ec, !length_app in Hlen. simpl in Hlen. destruct Hlen as (Hlen1 & Hlen2 & _).
    rewrite fill_p_R_app by (auto; rewrite repeat_length; lia).
    rewrite (skipn_all2 (repeat 0 A)) by (rewrite repeat_length; lia).
    rewrite app_nil_r.
    split; [lia|]. split; [lia|]. split; [rewrite length_app; simpl; lia|]. split.
    + intros i Hi. destruct (Hfr i ltac:(lia)) as [E1 E2]. rewrite E1, E2.
      rewrite !app_nth1 by lia. apply Hfree; lia.
    + intros Hjk. destruct (Nat.eq_dec j k) as [->|Hne].
      * destruct (Hfree k ltac:(lia)) as [Hz1 Hz2].
        rewrite count_locus_alleles_steps in Ec.
        pose proof (count_sample_loop k A (nth k (observed_alleles gd) [])
          (tla ++ [repeat 0%Z A]) (ta ++ [0%Z]) (length (nth k (observed_alleles gd) []))
          ltac:(rewrite length_app; lia) ltac:(rewrite length_app; lia) (le_n _)
          ltac:(rewrite app_nth1 by lia; exact Hz1) ltac:(rewrite app_nth1 by lia; exact Hz2)
          HA Hnn) as Hs.
        rewrite Ec, firstn_all in Hs.
        destruct Hs as (_ & _ & Hrow & _ & Hrnn & Hsum & Htot).
        assert (Hne0 : length (nth k (observed_alleles gd) []) <> 0%nat).
        { intros E. apply length_zero_iff_nil in E. rewrite E in Hex. inversion Hex. }
        rewrite app_nth2 by lia. rewrite Hl3, Nat.sub_diag. cbn [nth].
        rewrite <- Hsum.
        apply counts_simplex; [exact (Hrow Hne0)|exact Hrnn|].
        rewrite Hsum, Htot. apply sumZ_pos; assumption.
      * rewrite app_nth1 by lia. apply Hdone; lia.
Qed.

(** X13: in the chain the constructor builds, the empirical frequencies
    [p[j]] of a locus whose samples each report [A_j] non-negative allele
    counts, at least one of them positive, form a probability vector:
    [A_j] entries, each [>= 0], summing to 1. *)
Theorem new_chain_p_simplex (gd : GenotypingData) (lookup : Lookup) (params : Parameters)
    {Smp : Type} `{Sampler Smp} (s0 : Smp) (j : nat) :
  (j < num_loci gd)%nat ->
  Forall (fun g => length g = nth j (num_alleles gd) 0%nat) (nth j (observed_alleles gd) []) ->
  Forall (Forall (Z.le 0)) (nth j (observed_alleles gd) []) ->
  Exists (Exists (Z.lt 0)) (nth j (observed_alleles gd) []) ->
  let row := nth j (p (new_chain gd lookup params s0)) [] in
  length row = nth j (num_alleles gd) 0%nat /\ Forall (Rle 0) row /\ sumR row = 1.
Proof.
  intros Hj HA Hnn Hex. cbv zeta. unfold new_chain.
  match goal with
  | |- context [initialize_likelihood gd lookup params ?c5] =>
      destruct (init_lik_result gd lookup params c5 eq_refl eq_refl) as (Hl & _ & _);
      destruct Hl as (lo & ln' & s & E)
  end.
  rewrite E. clear E. cbn.
  pose proof (initialize_p_R_prefix gd j (num_loci gd) (le_n _) Hj HA Hnn Hex) as Hp.
  unfold initialize_p_R. cbv zeta.
  destruct (fold_left (initialize_p_locus_R gd) _ _) as [[tla ta] p0].
  destruct Hp as (_ & _ & _ & _ & Hd). exact (Hd Hj).
Qed.

(** ** The emission log-likelihoods *)

Lemma ln_neg_unit (x : R) : 0 < x < 1 -> ln x < 0.
Proof. intros [H0 H1]. rewrite <- ln_1. apply ln_increasing; lra. Qed.

Lemma IZR_mul_neg (t : Z) (l : R) : (0 <= t)%Z -> l < 0 -> IZR t * l <= 0.
Proof.
  intros Ht Hl. apply IZR_le in Ht. nra.
Qed.

(** X14: with both error rates strictly between 0 and 1 and non-negative
    genotype counts, every log-likelihood [calc_obs_genotype_lliks]
    returns is [<= 0] (each allele adds one of four logarithms of numbers
    in (0, 1), scaled by a non-negative count), and there is one per
    drawn genotype. *)
Theorem calc_obs_genotype_lliks_nonpos (og : list Z) (tg : list (list Z)) (en ep : R) (n : Z) :
  0 < en < 1 -> 0 < ep < 1 -> Forall (Forall (Z.le 0)) tg ->
  Forall (fun x => x <= 0) (calc_obs_genotype_lliks og tg en ep n) /\
  length (calc_obs_genotype_lliks og tg en ep n) = length tg.
Proof.
  intros Hen Hep Htg. unfold calc_obs_genotype_lliks.
  pose proof (ln_neg_unit en Hen) as Hfn. pose proof (ln_neg_unit ep Hep) as Hfp.
  pose proof (ln_neg_unit (1 - en) ltac:(lra)) as Htp.
  pose proof (ln_neg_unit (1 - ep) ltac:(lra)) as Htn.
  apply (fold_left_invariant (fun l => Forall (fun x => x <= 0) l /\ length l = length tg)).
  - intros l i Hl. apply fold_left_invariant; [|exact Hl].
    intros l' j [HF HL]. rewrite length_set_nth. split; [|exact HL].
    assert (Hg : Forall (Z.le 0) (nth i tg [])) by (apply Forall_nth_default; auto).
    assert (Ht : (0 <= nth j (nth i tg []) 0)%Z) by (apply (Forall_nth_default (Z.le 0)); auto; lia).
    assert (Hx : nth i l' 0 <= 0) by (apply (Forall_nth_default (fun x => x <= 0)); auto; lra).
    apply Forall_set_nth; [exact HF|].
    destruct (_ =? 0)%Z; destruct (_ =? 0)%Z.
    + lra.
    + pose proof (IZR_mul_neg _ _ Ht Hfn). lra.
    + lra.
    + pose proof (IZR_mul_neg _ _ Ht Htp). lra.
  - split; [apply Forall_forall; intros x Hx; apply repeat_spec in Hx; lra|apply repeat_length].
Qed.

(** ** Witnesses of the properties above, on the concrete run *)

Lemma update_eps_range_invariant_witness :
  0 < eps_pos ex_chain < max_eps_pos ex_params /\
  0 < eps_pos (update_eps_pos ex_data ex_lookup ex_params 1 ex_chain) < max_eps_pos ex_params /\
  0 < eps_neg ex_chain < max_eps_neg ex_params /\
  0 < eps_neg (update_eps_neg ex_data ex_lookup ex_params 1 ex_chain) < max_eps_neg ex_params.
Proof.
  destruct (update_eps_range_invariant ex_data ex_lookup ex_params 1 ex_chain) as [H1 H2].
  assert (Hp : 0 < eps_pos ex_chain < max_eps_pos ex_params) by (simpl; lra).
  assert (Hn : 0 < eps_neg ex_chain < max_eps_neg ex_params) by (simpl; lra).
  split; [exact Hp|split; [apply H1; exact Hp|split; [exact Hn|apply H2; exact Hn]]].
Defined.

Lemma update_m_accept_counters_witness :
  (0 < num_samples ex_data)%nat /\ (0 < length (m_accept ex_chain))%nat /\
  let c' := update_m ex_data ex_lookup ex_params 1 ex_chain in
  (nth 0 (m_accept c') 0 = nth 0 (m_accept ex_chain) 0 \/
   nth 0 (m_accept c') 0 = nth 0 (m_accept ex_chain) 0 + 1)%Z /\
  (nth 0 (m c') 0 <> nth 0 (m ex_chain) 0 ->
   nth 0 (m_accept c') 0 = nth 0 (m_accept ex_chain) 0 + 1)%Z.
Proof.
  split; [simpl; lia|]. split; [simpl; lia|].
  apply (update_m_accept_counters ex_data ex_lookup ex_params 1 ex_chain 0); simpl; lia.
Defined.

Lemma update_p_accept_counters_witness :
  (0 < num_loci ex_data)%nat /\ (0 < length (p_accept ex_chain))%nat /\
  let c' := update_p ex_data ex_lookup ex_params 1 ex_chain in
  (nth 0 (p_accept c') 0 = nth 0 (p_accept ex_chain) 0 \/
   nth 0 (p_accept c') 0 = nth 0 (p_accept ex_chain) 0 + 1)%Z /\
  (nth 0 (p c') [] <> nth 0 (p ex_chain) [] ->
   nth 0 (p_accept c') 0 = nth 0 (p_accept ex_chain) 0 + 1)%Z.
Proof.
  split; [simpl; lia|]. split; [simpl; lia|].
  apply (update_p_accept_counters ex_data ex_lookup ex_params 1 ex_chain 0); simpl; lia.
Defined.

Lemma update_m_prop_mean_nonneg_witness :
  Forall (Rle 0) (m_prop_mean ex_chain) /\
  Forall (Rle 0) (m_prop_mean (update_m ex_data ex_lookup ex_params 1 ex_chain)).
Proof.
  assert (H0 : Forall (Rle 0) (m_prop_mean ex_chain)) by (simpl; repeat constructor; lra).
  split; [exact H0|]. apply update_m_prop_mean_nonneg; exact H0.
Defined.

Lemma initialize_likelihood_caches_witness :
  llik_old (chain_members tt) = [] /\ llik_new (chain_members tt) = [] /\
  let c' := initialize_likelihood ex_data ex_lookup ex_params (chain_members tt) in
  lliks_only (chain_members tt) c' /\ llik_old c' = llik_new c' /\ cache_dims ex_data c'.
Proof.
  split; [reflexivity|]. split; [reflexivity|].
  apply initialize_likelihood_caches; reflexivity.
Defined.

Lemma new_chain_p_simplex_witness :
  (0 < num_loci ex_data)%nat /\
  Forall (fun g => length g = nth 0 (num_alleles ex_data) 0%nat) (nth 0 (observed_alleles ex_data) []) /\
  Forall (Forall (Z.le 0)) (nth 0 (observed_alleles ex_data) []) /\
  Exists (Exists (Z.lt 0)) (nth 0 (observed_alleles ex_data) []) /\
  let row := nth 0 (p (new_chain ex_data ex_lookup ex_params tt)) [] in
  length row = nth 0 (num_alleles ex_data) 0%nat /\ Forall (Rle 0) row /\ sumR row = 1.
Proof.
  assert (HA : Forall (fun g => length g = nth 0 (num_alleles ex_data) 0%nat)
                 (nth 0 (observed_alleles ex_data) [])) by (simpl; repeat constructor).
  assert (Hn : Forall (Forall (Z.le 0)) (nth 0 (observed_alleles ex_data) []))
    by (simpl; repeat constructor; lia).
  assert (He : Exists (Exists (Z.lt 0)) (nth 0 (observed_alleles ex_data) []))
    by (simpl; apply Exists_cons_hd, Exists_cons_hd; lia).
  split; [simpl; lia|]. split; [exact HA|]. split; [exact Hn|]. split; [exact He|].
  apply (new_chain_p_simplex ex_data ex_lookup ex_params tt 0); [simpl; lia|exact HA|exact Hn|exact He].
Defined.

Lemma calc_obs_genotype_lliks_nonpos_witness :
  0 < 1 / 10 < 1 /\ 0 < 1 / 10 < 1 /\ Forall (Forall (Z.le 0)) [[1; 0]%Z] /\
  Forall (fun x => x <= 0) (calc_obs_genotype_lliks [1; 0]%Z [[1; 0]%Z] (1 / 10) (1 / 10) 1) /\
  length (calc_obs_genotype_lliks [1; 0]%Z [[1; 0]%Z] (1 / 10) (1 / 10) 1) = length [[1; 0]%Z].
Proof.
  assert (Hg : Forall (Forall (Z.le 0)) [[1; 0]%Z]) by (repeat constructor; lia).
  split; [lra|]. split; [lra|]. split; [exact Hg|].
  apply calc_obs_genotype_lliks_nonpos; [lra|lra|exact Hg].
Defined.
